(** * Smart-Verifica: the PDF viewer controller and the upload filter

    A shallow embedding of
    [front/src/Components/others/pdf-viewer/WorkerPDFViewer.js] (the React
    component [PDFViewer]) and of the multer [fileFilter] of the Express
    router, together with the properties their specification states.

    Conventions of the embedding:
    - a JavaScript number that holds a page index is a [JS.number]: an
      integer or [NaN];
    - a rotation is an integer ([Z]) and JavaScript's [%] is [Z.rem]
      (truncated division: the sign of the dividend);
    - scales, normalized coordinates and pixel coordinates are rationals
      ([Q]): the exact arithmetic that the binary64 operations of the source
      approximate; a quotient is that of the source where the divisor is
      not zero;
    - calls on the 2D context and on the scroll container are recorded, in
      order, as a list of [Effect]s;
    - [setTimeout] appends a [Timer] to the pending timers of the state. *)

From Stdlib Require Import ZArith QArith Qminmax String Ascii List Bool Lia Lqa.
From Stdlib Require Import DecimalString DecimalZ DecimalPos DecimalN.
Import ListNotations.

Local Open Scope Z_scope.

(** ** JavaScript primitives used by the sources *)

Module JS.

(** A number that holds an integer, or [NaN]. *)
Inductive number : Type :=
| Num (z : Z)
| NaN.

(** [a + b] *)
Definition add (a b : number) : number :=
  match a, b with
  | Num x, Num y => Num (x + y)
  | _, _ => NaN
  end.

(** [a - b] *)
Definition sub (a b : number) : number :=
  match a, b with
  | Num x, Num y => Num (x - y)
  | _, _ => NaN
  end.

(** [Math.min(a, b)]: [NaN] as soon as one argument is. *)
Definition min (a b : number) : number :=
  match a, b with
  | Num x, Num y => Num (Z.min x y)
  | _, _ => NaN
  end.

(** [Math.max(a, b)] *)
Definition max (a b : number) : number :=
  match a, b with
  | Num x, Num y => Num (Z.max x y)
  | _, _ => NaN
  end.

(** [a === b] on numbers: [NaN] equals nothing. *)
Definition strict_eq (a b : number) : bool :=
  match a, b with
  | Num x, Num y => x =? y
  | _, _ => false
  end.

(** [Object.is(a, b)] on numbers, the comparison React applies to the
    entries of a dependency array: [NaN] is [NaN]. *)
Definition same_value (a b : number) : bool :=
  match a, b with
  | Num x, Num y => x =? y
  | NaN, NaN => true
  | _, _ => false
  end.

(** [a <= b] *)
Definition le (a b : number) : bool :=
  match a, b with
  | Num x, Num y => x <=? y
  | _, _ => false
  end.

(** [a % b] on integers. *)
Definition rem (a b : Z) : Z := Z.rem a b.

(** *** [parseInt(v)] with no radix *)

(** StrWhiteSpaceChar, for the characters a byte string can hold. *)
Definition is_whitespace (c : ascii) : bool :=
  let n := Z.of_N (N_of_ascii c) in
  (n =? 9) || (n =? 10) || (n =? 11) || (n =? 12) || (n =? 13) || (n =? 32).

Fixpoint trimStart (s : string) : string :=
  match s with
  | String c r => if is_whitespace c then trimStart r else s
  | EmptyString => EmptyString
  end.

(** The value of a character as a digit: [0-9], then [a-z] or [A-Z] for
    10 to 35. *)
Definition digit_value (c : ascii) : option Z :=
  let n := Z.of_N (N_of_ascii c) in
  if (48 <=? n) && (n <=? 57) then Some (n - 48)
  else if (97 <=? n) && (n <=? 122) then Some (n - 87)
  else if (65 <=? n) && (n <=? 90) then Some (n - 55)
  else None.

(** The longest prefix of radix-[R] digits, read left to right; [acc] is
    [None] until a digit has been read. *)
Fixpoint parse_digits (R : Z) (s : string) (acc : option Z) : option Z :=
  match s with
  | EmptyString => acc
  | String c r =>
      match digit_value c with
      | Some d =>
          if d <? R
          then parse_digits R r
                 (Some (match acc with Some a => a * R + d | None => d end))
          else acc
      | None => acc
      end
  end.

Definition strip_sign (s : string) : Z * string :=
  match s with
  | String "-"%char r => (-1, r)
  | String "+"%char r => (1, r)
  | _ => (1, s)
  end.

Definition strip_radix_prefix (s : string) : Z * string :=
  match s with
  | String "0"%char (String "x"%char r) => (16, r)
  | String "0"%char (String "X"%char r) => (16, r)
  | _ => (10, s)
  end.

(** [parseInt(s)] for a string [s]: leading white space, a sign, a
    [0x] prefix, then digits; [NaN] when there is no digit. *)
Definition parseInt_string (s : string) : number :=
  let '(sign, s1) := strip_sign (trimStart s) in
  let '(R, s2) := strip_radix_prefix s1 in
  match parse_digits R s2 None with
  | Some m => Num (sign * m)
  | None => NaN
  end.

(** [String(z)] for an integer [z] (the decimal numeral; JavaScript
    switches to exponent notation from 10^21 on). *)
Definition toString (z : Z) : string :=
  NilZero.string_of_int (Z.to_int z).

(** The integer a decimal numeral denotes, its digits read left to right
    after the prefix of value [a]. *)
Fixpoint uint_value (d : Decimal.uint) (a : Z) : Z :=
  match d with
  | Decimal.Nil => a
  | Decimal.D0 d => uint_value d (a * 10 + 0)
  | Decimal.D1 d => uint_value d (a * 10 + 1)
  | Decimal.D2 d => uint_value d (a * 10 + 2)
  | Decimal.D3 d => uint_value d (a * 10 + 3)
  | Decimal.D4 d => uint_value d (a * 10 + 4)
  | Decimal.D5 d => uint_value d (a * 10 + 5)
  | Decimal.D6 d => uint_value d (a * 10 + 6)
  | Decimal.D7 d => uint_value d (a * 10 + 7)
  | Decimal.D8 d => uint_value d (a * 10 + 8)
  | Decimal.D9 d => uint_value d (a * 10 + 9)
  end.

(** A value a [page] field holds: a number or a string. *)
Inductive value : Type :=
| VNum (z : Z)
| VStr (s : string).

(** [parseInt(v)]: the argument is converted to a string first. *)
Definition parseInt (v : value) : number :=
  match v with
  | VNum z => parseInt_string (toString z)
  | VStr s => parseInt_string s
  end.

(** [v === 'all'] and the like: a number is never a string. *)
Definition value_is_string (v : value) (lit : string) : bool :=
  match v with
  | VStr s => String.eqb s lit
  | VNum _ => false
  end.

End JS.

(** ** The upload filter of the Express router *)

Module Upload.

(** A regular expression that is a disjunction of literal alternatives,
    with its [i] flag: the shape of [/pdf|xml|png|jpg|jpeg|/i]. *)
Record RegExp : Type := {
  alternatives : list string;
  ignoreCase : bool
}.

(** Canonicalize of the [i] flag: the upper-case letter. *)
Definition canonicalize (c : ascii) : ascii :=
  let n := N_of_ascii c in
  if ((97 <=? n) && (n <=? 122))%N then ascii_of_N (n - 32) else c.

Definition char_matches (i : bool) (p c : ascii) : bool :=
  if i then Ascii.eqb (canonicalize p) (canonicalize c) else Ascii.eqb p c.

(** The literal [pat] matches at the start of [s]. *)
Fixpoint match_literal (i : bool) (pat s : string) : bool :=
  match pat, s with
  | EmptyString, _ => true
  | String p pat', String c s' => char_matches i p c && match_literal i pat' s'
  | String _ _, EmptyString => false
  end.

(** One of the alternatives, tried left to right, matches at the start
    of [s]. *)
Definition match_here (re : RegExp) (s : string) : bool :=
  existsb (fun pat => match_literal (ignoreCase re) pat s) (alternatives re).

(** [re.test(s)] for a regular expression without the [g] and [y] flags:
    a match is tried at index 0, 1, ..., up to the length of [s]. *)
Fixpoint test (re : RegExp) (s : string) : bool :=
  match_here re s ||
  match s with
  | EmptyString => false
  | String _ s' => test re s'
  end.

(** [/pdf|xml|png|jpg|jpeg|/i] *)
Definition filetypes : RegExp :=
  {| alternatives := ["pdf"; "xml"; "png"; "jpg"; "jpeg"; EmptyString]%string;
     ignoreCase := true |}.

(** The same expression without the alternative after the last bar. *)
Definition filetypes_without_empty : RegExp :=
  {| alternatives := ["pdf"; "xml"; "png"; "jpg"; "jpeg"]%string;
     ignoreCase := true |}.

Record File : Type := {
  originalname : string;
  mimetype : string
}.

(** What [fileFilter] passes to its callback: [cb(null, true)] or
    [cb(message)]. *)
Inductive Callback : Type :=
| cb_accept
| cb_error (msg : string).

Definition fileFilter_with (re : RegExp) (file : File) : Callback :=
  if test re (mimetype file)
  then cb_accept
  else cb_error "Erreur : Seuls les fichiers PDF et XML sont acceptés".

Definition fileFilter (file : File) : Callback :=
  fileFilter_with filetypes file.

End Upload.

(** ** The PDF viewer component *)

Module Viewer.

Local Open Scope Q_scope.

(** *** Data *)

(** A point [{x, y}]. *)
Record Vertex : Type := {
  x : Q;
  y : Q
}.

(** An element of [verticesGroups]: [{page, key, vertices}]. *)
Record VerticesGroup : Type := {
  page : JS.value;
  key : string;
  vertices : list Vertex
}.

(** The [viewport] argument of [drawVertices]: [{width, height, scale}]. *)
Record Viewport : Type := {
  width : Q;
  height : Q;
  viewport_scale : Q
}.

(** The overlay canvas, [canvas:nth-of-type(2)] of the container. *)
Record Canvas : Type := {
  canvas_width : Q;
  canvas_height : Q
}.

(** [showError]: [{open, message}]. *)
Record ErrorValue : Type := {
  open : bool;
  message : string
}.

Definition defaultErrorValue : ErrorValue :=
  {| open := false; message := EmptyString |}.

(** The document handle [getDocument] resolves to. *)
Record PdfDocument : Type := {
  fingerprint : Z;
  doc_numPages : Z
}.

(** *** Effects: calls on the 2D context of a canvas, on the scroll
    container, and the rendering of a page by [renderPage]. *)
Inductive Effect : Type :=
| clearRect (left top w h : Q)
| set_strokeStyle (style : string)
| set_lineWidth (w : Q)
| save
| beginPath
| moveTo (px py : Q)
| lineTo (px py : Q)
| closePath
| set_fillStyle (style : string)
| fill
| stroke
| set_font (font : string)
| fillRect (left top w h : Q)
| fillText (text : string) (px py : Q)
| restore
| scrollTo (left top : Q) (behavior : string)
| renderPage (pageNumber : JS.number) (scale : Q) (rotation : Z).

(** *** Geometry *)

(** [(r % 360 + 360) % 360] *)
Definition normalizedRotation (r : Z) : Z :=
  JS.rem (JS.rem r 360 + 360) 360.

(** The [switch] of [drawVertices]: a normalized vertex to a pixel of the
    viewport, for the normalized angle. The cases of a [switch] are tried
    in order with [===]. *)
Definition adjusted (viewport : Viewport) (normalizedAngle : Z) (vertex : Vertex)
  : Q * Q :=
  if (normalizedAngle =? 90)%Z then
    ((1 - y vertex) * width viewport, x vertex * height viewport)
  else if (normalizedAngle =? 180)%Z then
    ((1 - x vertex) * width viewport, (1 - y vertex) * height viewport)
  else if (normalizedAngle =? 270)%Z then
    (y vertex * width viewport, (1 - x vertex) * height viewport)
  else
    (x vertex * width viewport, y vertex * height viewport).

(** The [switch] of [handleOverlayMouseMove]: the mouse position relative
    to the bounding rectangle of the overlay canvas, of the given width
    and height, to the normalized point under the cursor. (The quotients
    are those of the source where the rectangle is not empty.) *)
Definition normalizedPoint (rect_width rect_height : Q) (rotation : Z)
  (mouseX mouseY : Q) : Vertex :=
  let normalizedRotation := normalizedRotation rotation in
  if (normalizedRotation =? 90)%Z then
    {| x := mouseY / rect_height;
       y := (rect_width - mouseX) / rect_width |}
  else if (normalizedRotation =? 180)%Z then
    {| x := (rect_width - mouseX) / rect_width;
       y := (rect_height - mouseY) / rect_height |}
  else if (normalizedRotation =? 270)%Z then
    {| x := (rect_height - mouseY) / rect_height;
       y := mouseX / rect_width |}
  else
    {| x := mouseX / rect_width;
       y := mouseY / rect_height |}.

(** *** The overlay renderer *)

Section Drawing.

(** [context.measureText(text).width] for the current font. *)
Variable measureText : string -> Q.

(** [scrollableRef.current] is set. *)
Variable container : bool.

(** [scrollToVertex(x, y, scale, container, margin = 50)] *)
Definition scrollToVertex (px py : Q) (margin : Q) : list Effect :=
  if container
  then
    let scrollX := px - margin in
    let scrollY := py - margin in
    let adjustedX := Qmax scrollX 0 in
    let adjustedY := Qmax scrollY 0 in
    [scrollTo adjustedX adjustedY "smooth"]
  else [].

(** The body of [vertice.vertices.forEach((vertex, index) => ...)],
    from index [index] on; [count] is [vertices.length], the number of
    groups passed to [drawVertices]. *)
Fixpoint forEach_vertex (viewport : Viewport) (normalizedAngle : Z)
  (count : nat) (scrollToView : bool) (index : nat) (vs : list Vertex)
  : list Effect :=
  match vs with
  | [] => []
  | vertex :: rest =>
      let '(adjustedX, adjustedY) := adjusted viewport normalizedAngle vertex in
      (if Nat.eqb index 0 then moveTo adjustedX adjustedY
       else lineTo adjustedX adjustedY)
      :: (if Nat.eqb count 1 && scrollToView
          then scrollToVertex adjustedX adjustedY 50
          else [])
      ++ forEach_vertex viewport normalizedAngle count scrollToView (S index) rest
  end.

(** [firstVertex] once the loop over the vertices is over: the pixel of
    the vertex of index 0, when there is one. *)
Definition firstVertex (viewport : Viewport) (normalizedAngle : Z)
  (vs : list Vertex) : option (Q * Q) :=
  match vs with
  | [] => None
  | vertex :: _ => Some (adjusted viewport normalizedAngle vertex)
  end.

(** The font of the label: bold 14px, then Hanken Grotesk between
    double quotes. *)
Definition label_font : string :=
  let quote := String (ascii_of_nat 34) EmptyString in
  ("bold 14px " ++ quote ++ "Hanken Grotesk" ++ quote)%string.

(** The label above the first vertex: [if (text && firstVertex)]. *)
Definition draw_text (text : string) (first : option (Q * Q)) : list Effect :=
  match text, first with
  | EmptyString, _ => []
  | _, None => []
  | _, Some (fx, fy) =>
      let textWidth := measureText text in
      let textHeight := 16 in
      [ set_fillStyle "rgba(0, 0, 255, 0.8)";
        set_font label_font;
        set_fillStyle "rgba(0, 0, 255)";
        fillRect (fx - textWidth / 2 - 4) (fy - textHeight - 10)
                 (textWidth + 8) textHeight;
        set_fillStyle "white";
        fillText text (fx - (textWidth / 2)) (fy - 15) ]
  end.

(** The test of the [if] that guards the drawing of a group:
    [(vertice.page === 'all') || parseInt(vertice.page) === page-1]. *)
Definition on_page (pageArg : JS.number) (vertice : VerticesGroup) : bool :=
  JS.value_is_string (page vertice) "all"
  || JS.strict_eq (JS.parseInt (page vertice)) (JS.sub pageArg (JS.Num 1)).

(** The body of [vertices.forEach((vertice) => ...)] for one group. *)
Definition draw_group (viewport : Viewport) (rotationAngle : Z)
  (count : nat) (scrollToView : bool) (text : string) (pageArg : JS.number)
  (vertice : VerticesGroup) : list Effect :=
  if on_page pageArg vertice
  then
    let normalizedAngle := normalizedRotation rotationAngle in
    [ set_strokeStyle "rgba(0, 0, 255, 0.8)"; set_lineWidth 1; save; beginPath ]
    ++ forEach_vertex viewport normalizedAngle count scrollToView 0
         (vertices vertice)
    ++ [ closePath; set_fillStyle "rgba(0, 0, 255, 0.2)"; fill; stroke ]
    ++ draw_text text (firstVertex viewport normalizedAngle (vertices vertice))
    ++ [ restore ]
  else [].

Fixpoint forEach_group (viewport : Viewport) (rotationAngle : Z)
  (count : nat) (scrollToView : bool) (text : string) (pageArg : JS.number)
  (groups : list VerticesGroup) : list Effect :=
  match groups with
  | [] => []
  | vertice :: rest =>
      draw_group viewport rotationAngle count scrollToView text pageArg vertice
      ++ forEach_group viewport rotationAngle count scrollToView text pageArg rest
  end.

(** [drawVertices(context, viewport, vertices, rotationAngle,
    scrollToView, text, page)]: the calls made on [context] and on the
    scroll container, in order. *)
Definition drawVertices (viewport : Viewport) (groups : list VerticesGroup)
  (rotationAngle : Z) (scrollToView : bool) (text : string)
  (pageArg : JS.number) : list Effect :=
  clearRect 0 0 (width viewport) (height viewport)
  :: forEach_group viewport rotationAngle (length groups) scrollToView text
       pageArg groups.

(** [updateVertices(vertices, scrollToView, page)], in a closure whose
    [rotation] is [rotation]: nothing happens without an overlay
    canvas. *)
Definition updateVertices (overlayCanvas : option Canvas) (rotation : Z)
  (groups : list VerticesGroup) (scrollToView : bool) (pageArg : JS.number)
  : list Effect :=
  match overlayCanvas with
  | Some canvas =>
      drawVertices
        {| width := canvas_width canvas;
           height := canvas_height canvas;
           viewport_scale := 1 |}
        groups rotation scrollToView EmptyString pageArg
  | None => []
  end.

End Drawing.

(** *** The state of the component *)

(** What a [setTimeout] callback of the component does when it fires. The
    callback that redraws the overlay closes over the [rotation] of the
    render that scheduled it. *)
Inductive Task : Type :=
| task_setLoading (b : bool)
| task_updateVertices (closure_rotation : Z) (groups : list VerticesGroup)
    (scrollToView : bool) (pageArg : JS.number).

Record Timer : Type := {
  delay : Z;
  callback : Task
}.

(** The [useState] cells of [PDFViewer], the overlay canvas found in the
    container, and the timers that are pending. *)
Record State : Type := {
  pdf : option PdfDocument;
  rotation : Z;
  numPages : Z;
  currentPage : JS.number;
  loading : bool;
  scale : Q;
  showError : ErrorValue;
  overlayCanvas : option Canvas;
  timers : list Timer
}.

(** The state of the first render: [useState(null)], [useState(0)],
    [useState(0)], [useState(1)], [useState(true)], [useZoom(_, 1.5)]. *)
Definition initial : State :=
  {| pdf := None;
     rotation := 0;
     numPages := 0;
     currentPage := JS.Num 1;
     loading := true;
     scale := 1.5;
     showError := defaultErrorValue;
     overlayCanvas := None;
     timers := [] |}.

Definition setPdf (d : option PdfDocument) (st : State) : State :=
  {| pdf := d; rotation := rotation st; numPages := numPages st;
     currentPage := currentPage st; loading := loading st; scale := scale st;
     showError := showError st; overlayCanvas := overlayCanvas st;
     timers := timers st |}.

Definition setRotation (f : Z -> Z) (st : State) : State :=
  {| pdf := pdf st; rotation := f (rotation st); numPages := numPages st;
     currentPage := currentPage st; loading := loading st; scale := scale st;
     showError := showError st; overlayCanvas := overlayCanvas st;
     timers := timers st |}.

Definition setNumPages (n : Z) (st : State) : State :=
  {| pdf := pdf st; rotation := rotation st; numPages := n;
     currentPage := currentPage st; loading := loading st; scale := scale st;
     showError := showError st; overlayCanvas := overlayCanvas st;
     timers := timers st |}.

Definition setCurrentPage (f : JS.number -> JS.number) (st : State) : State :=
  {| pdf := pdf st; rotation := rotation st; numPages := numPages st;
     currentPage := f (currentPage st); loading := loading st; scale := scale st;
     showError := showError st; overlayCanvas := overlayCanvas st;
     timers := timers st |}.

Definition setLoading (b : bool) (st : State) : State :=
  {| pdf := pdf st; rotation := rotation st; numPages := numPages st;
     currentPage := currentPage st; loading := b; scale := scale st;
     showError := showError st; overlayCanvas := overlayCanvas st;
     timers := timers st |}.

Definition setScale (f : Q -> Q) (st : State) : State :=
  {| pdf := pdf st; rotation := rotation st; numPages := numPages st;
     currentPage := currentPage st; loading := loading st; scale := f (scale st);
     showError := showError st; overlayCanvas := overlayCanvas st;
     timers := timers st |}.

Definition setShowError (e : ErrorValue) (st : State) : State :=
  {| pdf := pdf st; rotation := rotation st; numPages := numPages st;
     currentPage := currentPage st; loading := loading st; scale := scale st;
     showError := e; overlayCanvas := overlayCanvas st;
     timers := timers st |}.

Definition setTimers (ts : list Timer) (st : State) : State :=
  {| pdf := pdf st; rotation := rotation st; numPages := numPages st;
     currentPage := currentPage st; loading := loading st; scale := scale st;
     showError := showError st; overlayCanvas := overlayCanvas st;
     timers := ts |}.

(** [setTimeout(callback, delay)] *)
Definition setTimeout (task : Task) (ms : Z) (st : State) : State :=
  setTimers (timers st ++ [{| delay := ms; callback := task |}]) st.

(** *** The toolbar actions *)

Definition MAX_SCALE : Q := 5.
Definition MIN_SCALE : Q := 0.5.

Definition zoomIn (st : State) : State :=
  setScale (fun prevScale => Qmin (prevScale * 1.2) MAX_SCALE) st.

Definition zoomOut (st : State) : State :=
  setScale (fun prevScale => Qmax (prevScale / 1.2) MIN_SCALE) st.

Definition rotateLeft (st : State) : State :=
  setRotation (fun prevRotation => JS.rem (prevRotation - 90) 360) st.

Definition rotateRight (st : State) : State :=
  setRotation (fun prevRotation => JS.rem (prevRotation + 90) 360) st.

Definition nextPage (st : State) : State :=
  setCurrentPage
    (fun prevPage => JS.min (JS.add prevPage (JS.Num 1)) (JS.Num (numPages st)))
    st.

Definition prevPage (st : State) : State :=
  setCurrentPage
    (fun prevPage => JS.max (JS.sub prevPage (JS.Num 1)) (JS.Num 1))
    st.

Inductive Action : Type :=
| ZoomIn
| ZoomOut
| RotateLeft
| RotateRight
| NextPage
| PrevPage.

Definition step (a : Action) (st : State) : State :=
  match a with
  | ZoomIn => zoomIn st
  | ZoomOut => zoomOut st
  | RotateLeft => rotateLeft st
  | RotateRight => rotateRight st
  | NextPage => nextPage st
  | PrevPage => prevPage st
  end.

(** The actions of [actions], first to last. *)
Definition run (actions : list Action) (st : State) : State :=
  fold_left (fun s a => step a s) actions st.

(** *** Loading the document *)

(** A step that throws is a step that yields [None]; [try] blocks are
    sequences in the option monad. *)
Definition bind {A B : Type} (c : option A) (k : A -> option B) : option B :=
  match c with
  | Some a => k a
  | None => None
  end.

Notation "x <- c ;; k" := (bind c (fun x => k))
  (at level 61, c at next level, right associativity).

Section Loading.

(** The capabilities [loadPDF] awaits: [getPdfBlob(fileUrl)],
    [blob.arrayBuffer()] and [getDocument({ data }).promise]. Each one
    yields [None] when its promise is rejected. *)
Variables Blob ArrayBuffer : Type.
Variable getPdfBlob : string -> option Blob.
Variable arrayBuffer : Blob -> option ArrayBuffer.
Variable getDocument : ArrayBuffer -> option PdfDocument.

(** The body of the [try] block, up to the document. *)
Definition try_load (url : string) : option PdfDocument :=
  blob <- getPdfBlob url ;;
  data <- arrayBuffer blob ;;
  getDocument data.

(** [loadPDF()]; [fileUrl] is [None] when the prop is [undefined] or
    [null], and the empty string is falsy too. *)
Definition loadPDF (fileUrl : option string) (st : State) : State :=
  match fileUrl with
  | None => st
  | Some EmptyString => st
  | Some url =>
      match try_load url with
      | Some pdfDocument =>
          setNumPages (doc_numPages pdfDocument) (setPdf (Some pdfDocument) st)
      | None =>
          setShowError {| open := true; message := "Cannot load pdf file!" |} st
      end
  end.

(** [.finally(() => setTimeout(() => setLoading(false), 0))] *)
Definition finally_stop_loading (st : State) : State :=
  setTimeout (task_setLoading false) 0 st.

(** The effect that depends on [loadPDF]. *)
Definition useEffect_loadPDF (fileUrl : option string) (st : State) : State :=
  finally_stop_loading (loadPDF fileUrl (setLoading true st)).

(** [refreshPDF()], the handler of the Reload button. *)
Definition refreshPDF (fileUrl : option string) (st : State) : State :=
  finally_stop_loading
    (loadPDF fileUrl (setLoading true (setShowError defaultErrorValue st))).

End Loading.

(** *** The effects that follow a change of props or of state *)

(** The effect that depends on [verticesGroups]. *)
Definition useEffect_verticesGroups (verticesGroups : list VerticesGroup)
  (st : State) : State :=
  let page' :=
    match verticesGroups with
    | first :: _ => JS.add (JS.parseInt (page first)) (JS.Num 1)
    | [] => JS.Num 1
    end in
  setTimeout (task_updateVertices (rotation st) verticesGroups true page') 10
    (setCurrentPage (fun _ => page') st).

(** Two document handles are the same object. *)
Definition same_pdf (a b : option PdfDocument) : bool :=
  match a, b with
  | None, None => true
  | Some d, Some e => (fingerprint d =? fingerprint e)%Z
  | _, _ => false
  end.

(** No entry of the dependency array [[pdf, scale, rotation, currentPage]]
    has changed between two renders. *)
Definition deps_unchanged (prev st : State) : bool :=
  same_pdf (pdf prev) (pdf st)
  && Qeq_bool (scale prev) (scale st)
  && (rotation prev =? rotation st)%Z
  && JS.same_value (currentPage prev) (currentPage st).

(** The effect that renders the page: it runs when a dependency has
    changed, and renders when there is a document. *)
Definition useEffect_renderPage (prev st : State) : list Effect :=
  if deps_unchanged prev st then []
  else
    match pdf st with
    | None => []
    | Some _ => [renderPage (currentPage st) (scale st) (rotation st)]
    end.

(** *** Timers *)

Section Timers.

Variable measureText : string -> Q.
Variable container : bool.

(** A pending callback runs. *)
Definition fire (t : Timer) (st : State) : State * list Effect :=
  match callback t with
  | task_setLoading b => (setLoading b st, [])
  | task_updateVertices closure_rotation groups scrollToView pageArg =>
      (st, updateVertices measureText container (overlayCanvas st)
             closure_rotation groups scrollToView pageArg)
  end.

Fixpoint fire_all (ts : list Timer) (st : State) : State * list Effect :=
  match ts with
  | [] => (st, [])
  | t :: rest =>
      let '(st1, effects1) := fire t st in
      let '(st2, effects2) := fire_all rest st1 in
      (st2, effects1 ++ effects2)
  end.

(** Every pending callback runs, in the order of the calls to
    [setTimeout]. *)
Definition run_timers (st : State) : State * list Effect :=
  fire_all (timers st) (setTimers [] st).

End Timers.

(** *** The pointer over the text layer *)

Section Pointer.

Variable measureText : string -> Q.
Variable container : bool.

(** [isPointInPolygon(point, vertices)] of [utils/utils]. *)
Variable isPointInPolygon : Vertex -> list Vertex -> bool.

(** [handleOverlayMouseMove(event)], in a closure whose [vertices],
    [rotation] and [currentPage] are those of [st]: [mouseX] and [mouseY]
    are the position of the pointer relative to the bounding rectangle of
    the overlay canvas, of width [rect_width] and height [rect_height]. *)
Definition handleOverlayMouseMove (vertices' : list VerticesGroup) (st : State)
  (rect_width rect_height mouseX mouseY : Q) : list Effect :=
  if (0 <? length vertices')%nat then
    match overlayCanvas st with
    | Some canvas =>
        let point :=
          normalizedPoint rect_width rect_height (rotation st) mouseX mouseY in
        let verticesToShow :=
          filter (fun v => isPointInPolygon point (vertices v)) vertices' in
        if (0 <? length verticesToShow)%nat then
          drawVertices measureText container
            {| width := canvas_width canvas;
               height := canvas_height canvas;
               viewport_scale := 1 |}
            verticesToShow (rotation st) false
            (match verticesToShow with
             | first :: _ => key first
             | [] => EmptyString
             end)
            (currentPage st)
        else []
    | None => []
    end
  else [].

End Pointer.

(** *** Observations on a list of effects *)

Definition is_scrollTo (e : Effect) : bool :=
  match e with
  | scrollTo _ _ _ => true
  | _ => false
  end.

Definition is_renderPage (e : Effect) : bool :=
  match e with
  | renderPage _ _ _ => true
  | _ => false
  end.

(** The calls that build, fill and stroke a path. *)
Definition is_path_call (e : Effect) : bool :=
  match e with
  | beginPath | moveTo _ _ | lineTo _ _ | closePath | fill | stroke => true
  | _ => false
  end.

(** A closed path traced from the first vertex: move to the first pixel,
    line to the others. *)
Definition trace_path (viewport : Viewport) (normalizedAngle : Z)
  (vs : list Vertex) : list Effect :=
  match vs with
  | [] => []
  | first :: rest =>
      (let '(px, py) := adjusted viewport normalizedAngle first in moveTo px py)
      :: map (fun v =>
                let '(px, py) := adjusted viewport normalizedAngle v in
                lineTo px py) rest
  end.

(** The scroll that shows a pixel with a margin of 50. *)
Definition scroll_target (pixel : Q * Q) : Effect :=
  scrollTo (Qmax (fst pixel - 50) 0) (Qmax (snd pixel - 50) 0) "smooth".

(** The scroll the container ends at: the last [scrollTo], a later call
    replacing the target of an earlier one. *)
Definition final_scroll (effects : list Effect) : option Effect :=
  last (map Some (filter is_scrollTo effects)) None.

(** The multiples of 90 strictly between -360 and 360. *)
Definition quarter_turns : list Z := [-270; -180; -90; 0; 90; 180; 270]%Z.

(** The current page is a page of the document. *)
Definition page_in_range (st : State) : bool :=
  JS.le (JS.Num 1) (currentPage st)
  && JS.le (currentPage st) (JS.Num (numPages st)).

(** The scale is between [MIN_SCALE] and [MAX_SCALE]. *)
Definition scale_in_range (st : State) : Prop :=
  MIN_SCALE <= scale st /\ scale st <= MAX_SCALE.

(** *** The tools and the keyboard *)

(** What [handleKeyDown] reads of a keyboard event. *)
Record KeyboardEvent : Type := {
  ctrlKey : bool;
  event_key : string
}.

(** [handleKeyDown(e)] on the cell [activeTool]: the tool afterwards, and
    whether [e.preventDefault()] was called. *)
Definition handleKeyDown (e : KeyboardEvent) (activeTool : string)
  : string * bool :=
  if ctrlKey e then
    let '(tool, prevented) :=
      if String.eqb (event_key e) "h" || String.eqb (event_key e) "H"
      then ("handtool"%string, true)
      else (activeTool, false) in
    if String.eqb (event_key e) "s" || String.eqb (event_key e) "S"
    then ("selection"%string, true)
    else (tool, prevented)
  else (activeTool, false).

(** What changes [activeTool]: a key, or one of the two tool buttons of the
    top bar. *)
Inductive ToolInput : Type :=
| KeyDown (e : KeyboardEvent)
| ClickHandTool
| ClickSelection.

Definition tool_step (i : ToolInput) (activeTool : string) : string :=
  match i with
  | KeyDown e => fst (handleKeyDown e activeTool)
  | ClickHandTool => "handtool"
  | ClickSelection => "selection"
  end.

(** [useState("selection")], then the inputs first to last. *)
Definition tool_after (inputs : list ToolInput) : string :=
  fold_left (fun tool i => tool_step i tool) inputs "selection"%string.

(** *** The pagination control and the page items *)

(** [disabled={currentPage <= 1}] *)
Definition prev_disabled (st : State) : bool :=
  JS.le (currentPage st) (JS.Num 1).

(** [disabled={currentPage >= numPages}] *)
Definition next_disabled (st : State) : bool :=
  JS.le (JS.Num (numPages st)) (currentPage st).

(** A click on a button: a disabled button does not call its handler. *)
Definition click_prevPage (st : State) : State :=
  if prev_disabled st then st else prevPage st.

Definition click_nextPage (st : State) : State :=
  if next_disabled st then st else nextPage st.

(** [Array.from({ length: numPages }, (_, i) => i + 1)] *)
Definition pageNumbers (st : State) : list Z :=
  map (fun i => (Z.of_nat i + 1)%Z) (seq 0 (Z.to_nat (numPages st))).


(** [onClick={() => setCurrentPage(num)}] *)
Definition click_PageItem (num : Z) (st : State) : State :=
  setCurrentPage (fun _ => JS.Num num) st.

(** *** More observations on a list of effects *)

Definition is_save (e : Effect) : bool :=
  match e with save => true | _ => false end.

Definition is_restore (e : Effect) : bool :=
  match e with restore => true | _ => false end.

Definition is_beginPath (e : Effect) : bool :=
  match e with beginPath => true | _ => false end.

Definition is_closePath (e : Effect) : bool :=
  match e with closePath => true | _ => false end.



(** The calls that open and close: [save], [beginPath], [closePath],
    [restore]. *)
Definition is_bracket (e : Effect) : bool :=
  is_save e || is_restore e || is_beginPath e || is_closePath e.



(** Every text drawn is [text]. *)
Definition text_is (text : string) (e : Effect) : Prop :=
  match e with
  | fillText t _ _ => t = text
  | _ => True
  end.

(** A scroll that is smooth and goes to a position that is not negative. *)
Definition scroll_is_sound (e : Effect) : Prop :=
  match e with
  | scrollTo sl st behavior =>
      0 <= sl /\ 0 <= st /\ behavior = "smooth"%string
  | _ => True
  end.

(** The group has a vertex. *)
Definition has_vertex (g : VerticesGroup) : bool :=
  match vertices g with
  | [] => false
  | _ :: _ => true
  end.

(** [n] times the action [a]. *)
Definition repeat_action (n : nat) (a : Action) (st : State) : State :=
  run (repeat a n) st.

(** *** Renders *)

(** The prop [verticesGroups] of a mounted viewer: omitted by the caller,
    and then its default value [[]] is a new array at every render; or
    supplied as an array that is the same object from a render to the
    next. *)
Inductive VerticesGroupsProp : Type :=
| prop_omitted
| prop_supplied (groups : list VerticesGroup).

(** A state updater of the toolbar left the cells it can set, [scale],
    [rotation] and [currentPage], as they were: React does not render
    again. *)
Definition handler_changed_nothing (prev st : State) : bool :=
  Qeq_bool (scale prev) (scale st)
  && (rotation prev =? rotation st)%Z
  && JS.same_value (currentPage prev) (currentPage st).

(** The cells once the component has rendered again after a handler took
    them from [prev] to [st]. The effect that depends on [verticesGroups]
    runs after a render when the array is not the one of the render
    before: never for a supplied prop, always for an omitted one. In the
    latter case it sets the page to 1; if that changes the page the
    component renders once more, and the effect, run again, changes no
    cell. (The canvases that [renderPage] creates are not described.) *)
Definition after_render (prop : VerticesGroupsProp) (prev st : State) : State :=
  if handler_changed_nothing prev st then st
  else
    match prop with
    | prop_supplied _ => st
    | prop_omitted =>
        let st1 := useEffect_verticesGroups [] st in
        if JS.same_value (currentPage st) (currentPage st1) then st1
        else useEffect_verticesGroups [] st1
    end.

(** A toolbar action and the renders that follow it. *)
Definition act (prop : VerticesGroupsProp) (a : Action) (st : State) : State :=
  after_render prop st (step a st).

(** The actions of [actions], first to last, each followed by its
    renders. *)
Definition run_rendered (prop : VerticesGroupsProp) (actions : list Action)
  (st : State) : State :=
  fold_left (fun s a => act prop a s) actions st.

(** A click on a button of the pagination control and the renders that
    follow it. *)
Definition click_nextPage_rendered (prop : VerticesGroupsProp) (st : State)
  : State :=
  after_render prop st (click_nextPage st).

Definition click_prevPage_rendered (prop : VerticesGroupsProp) (st : State)
  : State :=
  after_render prop st (click_prevPage st).

(** The path calls of a drawn group: begin, the traced path, close, fill,
    stroke. *)
Definition path_of_group (viewport : Viewport) (rotationAngle : Z)
  (g : VerticesGroup) : list Effect :=
  beginPath
  :: trace_path viewport (normalizedRotation rotationAngle) (vertices g)
  ++ [closePath; fill; stroke].

End Viewer.

(** * Properties *)

(** ** JavaScript primitives *)

Module JSFacts.

Import JS.

Lemma parse_digits_numeral (d : Decimal.uint) (a : Z) :
  parse_digits 10 (NilEmpty.string_of_uint d) (Some a) = Some (uint_value d a).
Proof.
  revert a; induction d; intros a; cbn; try reflexivity; apply IHd.
Qed.

Lemma parse_digits_numeral_start (d : Decimal.uint) :
  d <> Decimal.Nil ->
  parse_digits 10 (NilEmpty.string_of_uint d) None = Some (uint_value d 0).
Proof.
  destruct d; intros Hd; try congruence; cbn; apply parse_digits_numeral.
Qed.

Lemma of_uint_acc_value (d : Decimal.uint) (acc : positive) :
  Zpos (Pos.of_uint_acc d acc) = uint_value d (Zpos acc).
Proof.
  revert acc; induction d; intros acc; cbn [Pos.of_uint_acc uint_value];
    try reflexivity; rewrite IHd; f_equal; lia.
Qed.

Lemma of_uint_value (d : Decimal.uint) :
  Z.of_N (Pos.of_uint d) = uint_value d 0.
Proof.
  induction d; cbn [Pos.of_uint uint_value]; try reflexivity;
    try exact IHd; cbn [Z.of_N]; rewrite of_uint_acc_value; reflexivity.
Qed.

Lemma to_uint_value (p : positive) : uint_value (Pos.to_uint p) 0 = Zpos p.
Proof.
  rewrite <- of_uint_value, DecimalPos.Unsigned.of_to. reflexivity.
Qed.

Lemma parseInt_string_unsigned (c : ascii) (r : string) :
  is_whitespace c = false ->
  strip_sign (String c r) = (1, String c r) ->
  strip_radix_prefix (String c r) = (10, String c r) ->
  parseInt_string (String c r) =
  match parse_digits 10 (String c r) None with
  | Some m => Num m
  | None => NaN
  end.
Proof.
  intros Hw Hs Hr. unfold parseInt_string.
  cbn [trimStart]. rewrite Hw, Hs, Hr.
  destruct (parse_digits 10 (String c r) None) as [m|]; [|reflexivity].
  f_equal. lia.
Qed.

Lemma parseInt_numeral (d : Decimal.uint) :
  d <> Decimal.Nil ->
  parseInt_string (NilEmpty.string_of_uint d) = Num (uint_value d 0).
Proof.
  intros Hd.
  assert (Hp := parse_digits_numeral_start d Hd).
  destruct d as [|d|d|d|d|d|d|d|d|d|d]; try congruence;
    cbn [NilEmpty.string_of_uint] in *;
    (rewrite parseInt_string_unsigned;
     [ rewrite Hp; reflexivity | reflexivity | reflexivity | ]);
    try reflexivity.
  destruct d; reflexivity.
Qed.

Lemma parseInt_negative_numeral (d : Decimal.uint) :
  d <> Decimal.Nil ->
  parseInt_string (String "-" (NilEmpty.string_of_uint d)) =
  Num (- uint_value d 0).
Proof.
  intros Hd.
  assert (Hp := parse_digits_numeral_start d Hd).
  unfold parseInt_string.
  change (trimStart (String "-" (NilEmpty.string_of_uint d)))
    with (String "-" (NilEmpty.string_of_uint d)).
  cbn [strip_sign].
  assert (Hr : strip_radix_prefix (NilEmpty.string_of_uint d)
               = (10, NilEmpty.string_of_uint d)).
  { destruct d as [|d|d|d|d|d|d|d|d|d|d]; try reflexivity.
    destruct d; reflexivity. }
  rewrite Hr, Hp. f_equal; lia.
Qed.

(** [parseInt] of a number that holds an integer is that integer. *)
Lemma parseInt_VNum (z : Z) : parseInt (VNum z) = Num z.
Proof.
  unfold parseInt, toString.
  destruct z as [|p|p]; [reflexivity | |].
  - cbn [Z.to_int NilZero.string_of_int].
    unfold NilZero.string_of_uint.
    assert (Hn := DecimalPos.Unsigned.to_uint_nonnil p).
    destruct (Pos.to_uint p) eqn:E; try congruence;
      rewrite <- E, parseInt_numeral, to_uint_value by congruence; reflexivity.
  - cbn [Z.to_int NilZero.string_of_int].
    unfold NilZero.string_of_uint.
    assert (Hn := DecimalPos.Unsigned.to_uint_nonnil p).
    destruct (Pos.to_uint p) eqn:E; try congruence;
      rewrite <- E, parseInt_negative_numeral, to_uint_value by congruence;
      reflexivity.
Qed.

End JSFacts.

(** ** The upload filter *)

Module UploadFacts.

Import Upload.

(** An empty alternative matches at index 0 of every string. *)
Lemma test_empty_alternative (re : RegExp) (s : string) :
  In EmptyString (alternatives re) -> test re s = true.
Proof.
  intros Hin.
  assert (Hhere : match_here re s = true).
  { unfold match_here. apply existsb_exists.
    exists EmptyString. split; [exact Hin | reflexivity]. }
  destruct s; cbn [test]; rewrite Hhere; reflexivity.
Qed.

(** C3: the rejection branch of [fileFilter] is unreachable. The regular
    expression [/pdf|xml|png|jpg|jpeg|/i] ends with an empty alternative, so
    it matches every mimetype, and the filter accepts every file: none is
    answered with the error message. *)
Theorem fileFilter_accepts_every_file :
  (forall mimetype : string, test filetypes mimetype = true) /\
  (forall file : File, fileFilter file = cb_accept) /\
  (forall (file : File) (msg : string), fileFilter file <> cb_error msg).
Proof.
  assert (Ht : forall m, test filetypes m = true).
  { intros m. apply test_empty_alternative. cbn. tauto. }
  assert (Hf : forall file, fileFilter file = cb_accept).
  { intros file. unfold fileFilter, fileFilter_with. rewrite Ht. reflexivity. }
  repeat split; auto.
  intros file msg. rewrite Hf. discriminate.
Qed.

(** Without the empty alternative the expression does tell types apart:
    it finds [pdf] in any case inside a mimetype, and nothing in
    [text/plain]. *)
Example filetypes_without_empty_rejects :
  test filetypes_without_empty "application/PDF" = true /\
  test filetypes_without_empty "text/plain" = false /\
  fileFilter {| originalname := "notes.txt"; mimetype := "text/plain" |}
  = cb_accept.
Proof. repeat split; reflexivity. Qed.

End UploadFacts.

(** ** The PDF viewer *)

Module ViewerFacts.

Import Viewer.

(** *** Geometry *)

(** C1: for every viewport of non-zero width and height and every
    rotation, the point [normalizedPoint] computes from the pixel
    [adjusted] computes for a vertex is that vertex: the cursor
    normalization of [handleOverlayMouseMove] undoes the transform of
    [drawVertices], for the angles 0, 90, 180 and 270 and for every point
    (in exact arithmetic). *)
Theorem draw_then_cursor_roundtrip (viewport : Viewport) (rotation : Z)
  (vertex : Vertex) :
  ~ width viewport == 0 -> ~ height viewport == 0 ->
  let pixel := adjusted viewport (normalizedRotation rotation) vertex in
  let point :=
    normalizedPoint (width viewport) (height viewport) rotation
      (fst pixel) (snd pixel) in
  x point == x vertex /\ y point == y vertex.
Proof.
  intros HW HH. unfold adjusted, normalizedPoint. cbv zeta.
  destruct (normalizedRotation rotation =? 90);
    [| destruct (normalizedRotation rotation =? 180);
       [| destruct (normalizedRotation rotation =? 270)]];
    cbn [fst snd x y]; split; field; assumption.
Qed.

Lemma draw_then_cursor_roundtrip_witness :
  let viewport := {| width := 800; height := 600; viewport_scale := 1 |} in
  let vertex := {| x := 0.25; y := 0.1 |} in
  let pixel := adjusted viewport (normalizedRotation 270) vertex in
  let point := normalizedPoint 800 600 270 (fst pixel) (snd pixel) in
  (x point == 0.25 /\ y point == 0.1)%Q.
Proof.
  cbv zeta.
  apply (draw_then_cursor_roundtrip
           {| width := 800; height := 600; viewport_scale := 1 |} 270
           {| x := 0.25; y := 0.1 |}); cbn [width height]; intros H; discriminate H.
Defined.

Example roundtrip_at_90 :
  let viewport := {| width := 800; height := 600; viewport_scale := 1 |} in
  let vertex := {| x := 0.25; y := 0.1 |} in
  let pixel := adjusted viewport (normalizedRotation 90) vertex in
  (fst pixel == 720 /\ snd pixel == 150)%Q /\
  (x (normalizedPoint 800 600 90 (fst pixel) (snd pixel)) == 0.25)%Q /\
  (y (normalizedPoint 800 600 90 (fst pixel) (snd pixel)) == 0.1)%Q.
Proof. cbv zeta. vm_compute. intuition congruence. Qed.

(** *** Rotation *)

Lemma step_rotation (a : Action) (st : State) :
  In (rotation st) quarter_turns -> In (rotation (step a st)) quarter_turns.
Proof.
  intros Hin. destruct a; cbn [step]; try exact Hin;
    unfold rotateLeft, rotateRight, setRotation; cbn [rotation];
    unfold quarter_turns in *; cbn [In] in Hin;
    destruct Hin as [<- | [<- | [<- | [<- | [<- | [<- | [<- | []]]]]]]];
    cbn; tauto.
Qed.

Lemma run_rotation (actions : list Action) (st : State) :
  In (rotation st) quarter_turns ->
  In (rotation (run actions st)) quarter_turns.
Proof.
  revert st; induction actions as [|a actions IH]; intros st Hin;
    [exact Hin |].
  cbn [run fold_left]. apply IH, step_rotation, Hin.
Qed.

Lemma quarter_turn_normalized (r : Z) :
  In r quarter_turns -> In (normalizedRotation r) [0; 90; 180; 270].
Proof.
  unfold quarter_turns; cbn [In].
  intros [<- | [<- | [<- | [<- | [<- | [<- | [<- | []]]]]]]]; cbn; tauto.
Qed.

(** The counterexample of C2: one [rotateLeft] from the initial state
    stores -90, which is not one of 0, 90, 180, 270. *)
Lemma rotateLeft_stores_negative :
  rotation (run [RotateLeft] initial) = -90 /\
  ~ In (rotation (run [RotateLeft] initial)) [0; 90; 180; 270].
Proof.
  split; [reflexivity |]. cbn. intros H.
  repeat (destruct H as [H | H]; [discriminate H |]). exact H.
Qed.

(** C2, as the code has it: from the initial state, after any sequence of toolbar
    actions the stored rotation is a multiple of 90 strictly between -360
    and 360 (the sign is that of JavaScript's remainder), and the angle
    [drawVertices] and [handleOverlayMouseMove] normalize it to is one of
    0, 90, 180, 270. *)
Theorem rotation_after_actions (actions : list Action) :
  let r := rotation (run actions initial) in
  In r [-270; -180; -90; 0; 90; 180; 270] /\
  In (normalizedRotation r) [0; 90; 180; 270].
Proof.
  cbv zeta.
  assert (H : In (rotation (run actions initial)) quarter_turns).
  { apply run_rotation. cbn. tauto. }
  split; [exact H | apply quarter_turn_normalized, H].
Qed.

(** *** Zoom *)

Local Open Scope Q_scope.

Lemma zoomIn_in_range (st : State) :
  scale_in_range st -> scale_in_range (zoomIn st).
Proof.
  unfold scale_in_range, zoomIn, setScale, MIN_SCALE, MAX_SCALE.
  cbn [scale]. intros [Hlo Hhi]. split.
  - apply Q.min_glb; lra.
  - apply Q.le_min_r.
Qed.

Lemma zoomOut_in_range (st : State) :
  scale_in_range st -> scale_in_range (zoomOut st).
Proof.
  unfold scale_in_range, zoomOut, setScale, MIN_SCALE, MAX_SCALE.
  cbn [scale]. intros [Hlo Hhi]. split.
  - apply Q.le_max_r.
  - apply Q.max_lub; [| lra].
    apply Qle_shift_div_r; lra.
Qed.

Lemma step_scale_in_range (a : Action) (st : State) :
  scale_in_range st -> scale_in_range (step a st).
Proof.
  intros H. destruct a; cbn [step];
    [ apply zoomIn_in_range, H | apply zoomOut_in_range, H | exact H ..].
Qed.

(** [zoomIn] and [zoomOut] clamp on their own side whatever the scale
    was. *)
Lemma zoomIn_le_max (st : State) : scale (zoomIn st) <= MAX_SCALE.
Proof. apply Q.le_min_r. Qed.

Lemma zoomOut_ge_min (st : State) : MIN_SCALE <= scale (zoomOut st).
Proof. apply Q.le_max_r. Qed.

(** C8: from a scale in [0.5, 5], every sequence of toolbar actions, and
    so every sequence of [zoomIn] and [zoomOut], keeps the scale in
    [0.5, 5]; [zoomIn] yields the scale times 1.2, or 5 when that is
    larger, and [zoomOut] the scale divided by 1.2, or 0.5 when that is
    smaller. *)
Theorem zoom_keeps_scale_in_range (actions : list Action) (st : State) :
  0.5 <= scale st /\ scale st <= 5 ->
  (0.5 <= scale (run actions st) /\ scale (run actions st) <= 5) /\
  scale (zoomIn st) == (if Qle_bool (scale st * 1.2) 5
                        then scale st * 1.2 else 5) /\
  scale (zoomOut st) == (if Qle_bool 0.5 (scale st / 1.2)
                         then scale st / 1.2 else 0.5).
Proof.
  intros Hst. split; [| split].
  - change (scale_in_range (run actions st)).
    change (scale_in_range st) in Hst.
    revert st Hst; induction actions as [|a actions IH]; intros st Hst;
      [exact Hst |].
    cbn [run fold_left]. apply IH, step_scale_in_range, Hst.
  - unfold zoomIn, setScale, MAX_SCALE; cbn [scale].
    destruct (Qle_bool (scale st * 1.2) 5) eqn:E.
    + apply Q.min_l, Qle_bool_iff, E.
    + apply Q.min_r. apply Qlt_le_weak, Qnot_le_lt.
      intros H. apply Qle_bool_iff in H. congruence.
  - unfold zoomOut, setScale, MIN_SCALE; cbn [scale].
    destruct (Qle_bool 0.5 (scale st / 1.2)) eqn:E.
    + apply Q.max_l, Qle_bool_iff, E.
    + apply Q.max_r. apply Qlt_le_weak, Qnot_le_lt.
      intros H. apply Qle_bool_iff in H. congruence.
Qed.

Lemma zoom_keeps_scale_in_range_witness :
  (0.5 <= scale initial /\ scale initial <= 5) /\
  (0.5 <= scale (run [ZoomIn; ZoomIn; ZoomOut] initial) /\
   scale (run [ZoomIn; ZoomIn; ZoomOut] initial) <= 5).
Proof.
  assert (H : 0.5 <= scale initial /\ scale initial <= 5).
  { cbn [scale initial]. split; lra. }
  split; [exact H |].
  exact (proj1 (zoom_keeps_scale_in_range [ZoomIn; ZoomIn; ZoomOut] initial H)).
Defined.

(** Repeated [zoomIn] ends at 5 and repeated [zoomOut] at 0.5. *)
Example zoom_saturates :
  scale (run (repeat ZoomIn 7) initial) == 5 /\
  scale (run (repeat ZoomIn 20) initial) == 5 /\
  scale (run (repeat ZoomOut 7) initial) == 0.5 /\
  scale (run (repeat ZoomOut 20) initial) == 0.5.
Proof. repeat split; vm_compute; reflexivity. Qed.

(** *** Page navigation *)

Local Open Scope Z_scope.

Lemma page_in_range_spec (st : State) :
  page_in_range st = true <->
  exists p, currentPage st = JS.Num p /\ 1 <= p <= numPages st.
Proof.
  unfold page_in_range. destruct (currentPage st) as [p|]; cbn [JS.le].
  - rewrite andb_true_iff, !Z.leb_le. split.
    + intros H. exists p. split; [reflexivity | lia].
    + intros [q [Hq H]]. injection Hq as ->. lia.
  - split; [discriminate | intros [q [Hq _]]; discriminate Hq].
Qed.


(** *** The overlay renderer *)

Section DrawingFacts.

Variable measureText : string -> Q.
Variable container : bool.
Variable viewport : Viewport.

Lemma scrollToVertex_no_path (px py margin : Q) :
  filter is_path_call (scrollToVertex container px py margin) = [].
Proof. unfold scrollToVertex. destruct container; reflexivity. Qed.

(** After index 0 every vertex is reached by a line. *)
Lemma forEach_vertex_lines (angle : Z) (count : nat) (scrollToView : bool)
  (index : nat) (vs : list Vertex) :
  filter is_path_call
    (forEach_vertex container viewport angle count scrollToView (S index) vs)
  = map (fun v => let '(px, py) := adjusted viewport angle v in lineTo px py) vs.
Proof.
  revert index; induction vs as [|v vs IH]; intros index; [reflexivity |].
  cbn [forEach_vertex map]. destruct (adjusted viewport angle v) as [px py].
  cbn [Nat.eqb filter is_path_call]. rewrite filter_app, IH. f_equal.
  destruct (Nat.eqb count 1 && scrollToView);
    [rewrite scrollToVertex_no_path |]; reflexivity.
Qed.

Lemma forEach_vertex_path (angle : Z) (count : nat) (scrollToView : bool)
  (vs : list Vertex) :
  filter is_path_call
    (forEach_vertex container viewport angle count scrollToView 0 vs)
  = trace_path viewport angle vs.
Proof.
  destruct vs as [|v vs]; [reflexivity |].
  cbn [forEach_vertex trace_path]. destruct (adjusted viewport angle v) as [px py].
  cbn [Nat.eqb filter is_path_call]. rewrite filter_app, forEach_vertex_lines.
  f_equal.
  destruct (Nat.eqb count 1 && scrollToView);
    [rewrite scrollToVertex_no_path |]; reflexivity.
Qed.

Lemma draw_text_no_path (text : string) (first : option (Q * Q)) :
  filter is_path_call (draw_text measureText text first) = [].
Proof.
  unfold draw_text. destruct text; [reflexivity |].
  destruct first as [[fx fy]|]; reflexivity.
Qed.

(** The loop over the groups draws the groups that pass the test, in
    order. *)
Lemma forEach_group_filter (rotationAngle : Z) (count : nat)
  (scrollToView : bool) (text : string) (pageArg : JS.number)
  (groups : list VerticesGroup) :
  forEach_group measureText container viewport rotationAngle count scrollToView
    text pageArg groups
  = flat_map
      (draw_group measureText container viewport rotationAngle count
         scrollToView text pageArg)
      (filter (on_page pageArg) groups).
Proof.
  induction groups as [|g groups IH]; [reflexivity |].
  cbn [forEach_group filter]. rewrite IH.
  destruct (on_page pageArg g) eqn:E; [reflexivity |].
  unfold draw_group. rewrite E. reflexivity.
Qed.

Lemma on_page_spec (pageArg : JS.number) (g : VerticesGroup) :
  on_page pageArg g = true <->
  page g = JS.VStr "all" \/
  exists n, JS.parseInt (page g) = JS.Num n /\ pageArg = JS.Num (n + 1).
Proof.
  unfold on_page. rewrite orb_true_iff. split.
  - intros [H | H].
    + left. destruct (page g) as [z|s]; [discriminate H |].
      cbn [JS.value_is_string] in H. apply String.eqb_eq in H. now subst.
    + right. destruct (JS.parseInt (page g)) as [n|]; [| discriminate H].
      destruct pageArg as [p|]; [| discriminate H].
      cbn [JS.sub JS.strict_eq] in H. apply Z.eqb_eq in H.
      exists n. split; [reflexivity | f_equal; lia].
  - intros [H | [n [Hn Hp]]].
    + left. rewrite H. reflexivity.
    + right. rewrite Hn, Hp. cbn [JS.sub JS.strict_eq]. apply Z.eqb_eq. lia.
Qed.

(** C7: [drawVertices] first clears the whole viewport, then draws, in
    order, exactly the groups whose page is the string all or parses to the
    page argument minus 1, and nothing for the other groups; for a group it
    draws, the path calls are: begin, move to the pixel of the first vertex,
    line to the pixels of the others, close, fill, stroke, the fill being
    made with the translucent colour. *)
Theorem drawVertices_draws_page_groups (groups : list VerticesGroup)
  (rotationAngle : Z) (scrollToView : bool) (text : string)
  (pageArg : JS.number) :
  let draw :=
    draw_group measureText container viewport rotationAngle (length groups)
      scrollToView text pageArg in
  drawVertices measureText container viewport groups rotationAngle scrollToView
    text pageArg
  = clearRect 0 0 (width viewport) (height viewport)
    :: flat_map draw (filter (on_page pageArg) groups) /\
  (forall g,
      on_page pageArg g = true <->
      page g = JS.VStr "all" \/
      exists n, JS.parseInt (page g) = JS.Num n /\ pageArg = JS.Num (n + 1)) /\
  (forall g, on_page pageArg g = false -> draw g = []) /\
  (forall g,
      on_page pageArg g = true ->
      filter is_path_call (draw g)
      = beginPath
        :: trace_path viewport (normalizedRotation rotationAngle) (vertices g)
        ++ [closePath; fill; stroke] /\
      exists before after,
        draw g = before
                 ++ [closePath; set_fillStyle "rgba(0, 0, 255, 0.2)"; fill; stroke]
                 ++ after /\
        filter is_path_call after = []).
Proof.
  cbv zeta. split; [| split; [| split]].
  - unfold drawVertices. rewrite forEach_group_filter. reflexivity.
  - intros g. apply on_page_spec.
  - intros g Hg. unfold draw_group. rewrite Hg. reflexivity.
  - intros g Hg. unfold draw_group. rewrite Hg. split.
    + cbn [app filter is_path_call]. rewrite !filter_app.
      rewrite forEach_vertex_path. cbn [app filter is_path_call].
      rewrite filter_app, draw_text_no_path. reflexivity.
    + eexists. eexists. split.
      * rewrite app_assoc. reflexivity.
      * rewrite filter_app, draw_text_no_path. reflexivity.
Qed.

(** The scenario of the specification: a square tagged with page 0 and a
    group tagged with page 1, drawn for the current page 1 on a viewport of
    200 by 100 at rotation 0: the square alone is drawn. *)
Example draw_square_on_first_page :
  let square :=
    {| page := JS.VNum 0; key := "total";
       vertices := [ {| x := 0.1; y := 0.1 |}; {| x := 0.3; y := 0.1 |};
                     {| x := 0.3; y := 0.3 |}; {| x := 0.1; y := 0.3 |} ] |} in
  let other :=
    {| page := JS.VStr "1"; key := "date";
       vertices := [ {| x := 0.5; y := 0.5 |}; {| x := 0.6; y := 0.5 |} ] |} in
  filter is_path_call
    (drawVertices measureText container
       {| width := 200; height := 100; viewport_scale := 1 |}
       [square; other] 0 false EmptyString (JS.Num 1))
  = [ beginPath;
      moveTo (0.1 * 200) (0.1 * 100); lineTo (0.3 * 200) (0.1 * 100);
      lineTo (0.3 * 200) (0.3 * 100); lineTo (0.1 * 200) (0.3 * 100);
      closePath; fill; stroke ].
Proof. reflexivity. Qed.

(** *** Scrolling to a group *)

Lemma draw_text_no_scroll (text : string) (first : option (Q * Q)) :
  filter is_scrollTo (draw_text measureText text first) = [].
Proof.
  unfold draw_text. destruct text; [reflexivity |].
  destruct first as [[fx fy]|]; reflexivity.
Qed.

(** The loop over the vertices of the only group scrolls to each vertex in
    turn. *)
Lemma forEach_vertex_scrolls (angle : Z) (index : nat) (vs : list Vertex) :
  filter is_scrollTo (forEach_vertex true viewport angle 1 true index vs)
  = map (fun v => scroll_target (adjusted viewport angle v)) vs.
Proof.
  revert index; induction vs as [|v vs IH]; intros index; [reflexivity |].
  cbn [forEach_vertex map]. destruct (adjusted viewport angle v) as [px py].
  cbn [Nat.eqb andb scrollToVertex app].
  destruct (Nat.eqb index 0); cbn [filter is_scrollTo]; rewrite IH; reflexivity.
Qed.

(** It does not scroll when the number of groups is not 1, when
    [scrollToView] is false, or when there is no scroll container. *)
Lemma forEach_vertex_no_scroll (angle : Z) (count : nat) (scrollToView : bool)
  (index : nat) (vs : list Vertex) :
  Nat.eqb count 1 && scrollToView && container = false ->
  filter is_scrollTo
    (forEach_vertex container viewport angle count scrollToView index vs) = [].
Proof.
  intros H. revert index; induction vs as [|v vs IH]; intros index;
    [reflexivity |].
  cbn [forEach_vertex]. destruct (adjusted viewport angle v) as [px py].
  assert (Hs : filter is_scrollTo
                 (if Nat.eqb count 1 && scrollToView
                  then scrollToVertex container px py 50 else []) = []).
  { unfold scrollToVertex.
    destruct (Nat.eqb count 1 && scrollToView); [| reflexivity].
    destruct container; [discriminate H | reflexivity]. }
  destruct (Nat.eqb index 0); cbn [filter is_scrollTo];
    rewrite filter_app, Hs, IH; reflexivity.
Qed.

Lemma draw_group_no_scroll (rotationAngle : Z) (count : nat)
  (scrollToView : bool) (text : string) (pageArg : JS.number)
  (g : VerticesGroup) :
  Nat.eqb count 1 && scrollToView && container = false ->
  filter is_scrollTo
    (draw_group measureText container viewport rotationAngle count scrollToView
       text pageArg g) = [].
Proof.
  intros H. unfold draw_group. destruct (on_page pageArg g); [| reflexivity].
  cbn [app filter is_scrollTo].
  rewrite filter_app, forEach_vertex_no_scroll by exact H.
  cbn [app filter is_scrollTo]. rewrite filter_app, draw_text_no_scroll.
  reflexivity.
Qed.

Lemma drawVertices_no_scroll (groups : list VerticesGroup) (rotationAngle : Z)
  (scrollToView : bool) (text : string) (pageArg : JS.number) :
  Nat.eqb (length groups) 1 && scrollToView && container = false ->
  filter is_scrollTo
    (drawVertices measureText container viewport groups rotationAngle
       scrollToView text pageArg) = [].
Proof.
  intros H. unfold drawVertices. cbn [filter is_scrollTo].
  generalize (length groups) H. clear H. intros count H.
  induction groups as [|g groups IH]; [reflexivity |].
  cbn [forEach_group]. rewrite filter_app, draw_group_no_scroll, IH by exact H.
  reflexivity.
Qed.


End DrawingFacts.

(** C6, as the code has it: when [drawVertices] is called with
    [scrollToView] true and a list of exactly one group, that group is
    drawn and the scroll container exists, it asks for one smooth scroll
    per vertex of the group, in order, each to the pixel of the vertex
    minus the margin of 50, clamped at 0; the scroll the container ends at
    is therefore that of the last vertex of the group, which for a group of
    one vertex is its first. When the list has no group or more than one,
    it does not scroll, even if exactly one of the groups is drawn. *)
Theorem drawVertices_scrolls_to_each_vertex (measureText : string -> Q)
  (viewport : Viewport) (g : VerticesGroup) (rotationAngle : Z)
  (text : string) (pageArg : JS.number) :
  on_page pageArg g = true ->
  let effects :=
    drawVertices measureText true viewport [g] rotationAngle true text pageArg in
  let pixel := adjusted viewport (normalizedRotation rotationAngle) in
  let target := fun v =>
    scrollTo (Qmax (fst (pixel v) - 50) 0) (Qmax (snd (pixel v) - 50) 0)
      "smooth" in
  filter is_scrollTo effects = map target (vertices g) /\
  (forall vs v, vertices g = vs ++ [v] -> final_scroll effects = Some (target v)) /\
  (forall v, vertices g = [v] ->
             filter is_scrollTo effects = [target v] /\
             final_scroll effects = Some (target v)) /\
  (forall groups,
      length groups <> 1%nat ->
      let others :=
        drawVertices measureText true viewport groups rotationAngle true text
          pageArg in
      filter is_scrollTo others = [] /\ final_scroll others = None).
Proof.
  intros Hg. cbv zeta.
  assert (Hs : filter is_scrollTo
                 (drawVertices measureText true viewport [g] rotationAngle true
                    text pageArg)
               = map (fun v =>
                        scroll_target
                          (adjusted viewport (normalizedRotation rotationAngle) v))
                   (vertices g)).
  { unfold drawVertices. cbn [length forEach_group filter is_scrollTo].
    rewrite app_nil_r. unfold draw_group. rewrite Hg.
    cbn [app filter is_scrollTo].
    rewrite filter_app, forEach_vertex_scrolls.
    cbn [app filter is_scrollTo]. rewrite filter_app, draw_text_no_scroll.
    cbn [app filter is_scrollTo]. apply app_nil_r. }
  assert (Hlast : forall vs v,
             vertices g = vs ++ [v] ->
             final_scroll
               (drawVertices measureText true viewport [g] rotationAngle true
                  text pageArg)
             = Some (scroll_target
                       (adjusted viewport (normalizedRotation rotationAngle) v))).
  { intros vs v Hv. unfold final_scroll. rewrite Hs, Hv, !map_app.
    cbn [map]. apply last_last. }
  split; [exact Hs | split; [exact Hlast | split]].
  - intros v Hv. split.
    + rewrite Hs, Hv. reflexivity.
    + apply (Hlast [] v). exact Hv.
  - intros groups Hlen.
    assert (Hn : filter is_scrollTo
                   (drawVertices measureText true viewport groups rotationAngle
                      true text pageArg) = []).
    { apply drawVertices_no_scroll.
      apply Nat.eqb_neq in Hlen. rewrite Hlen. reflexivity. }
    split; [exact Hn |]. unfold final_scroll. rewrite Hn. reflexivity.
Qed.

Lemma drawVertices_scrolls_to_each_vertex_witness :
  let g :=
    {| page := JS.VNum 0; key := "total";
       vertices := [ {| x := 0.1; y := 0.1 |}; {| x := 0.9; y := 0.9 |} ] |} in
  let viewport := {| width := 1000; height := 1000; viewport_scale := 1 |} in
  filter is_scrollTo
    (drawVertices (fun _ => 0%Q) true viewport [g] 0 true EmptyString (JS.Num 1))
  = [ scrollTo (Qmax (0.1 * 1000 - 50) 0) (Qmax (0.1 * 1000 - 50) 0) "smooth";
      scrollTo (Qmax (0.9 * 1000 - 50) 0) (Qmax (0.9 * 1000 - 50) 0) "smooth" ].
Proof.
  cbv zeta.
  exact (proj1 (drawVertices_scrolls_to_each_vertex (fun _ => 0%Q)
                  {| width := 1000; height := 1000; viewport_scale := 1 |}
                  {| page := JS.VNum 0; key := "total";
                     vertices := [ {| x := 0.1; y := 0.1 |};
                                   {| x := 0.9; y := 0.9 |} ] |}
                  0 EmptyString (JS.Num 1) eq_refl)).
Defined.

(** The counterexample of C6. A group of two vertices, (0.1, 0.1) and
    (0.9, 0.9), drawn alone on a viewport of 1000 by 1000 with
    [scrollToView] true: the container ends at (850, 850), the last vertex
    minus the margin, and not at (50, 50), the first vertex minus the
    margin. And when two groups are passed of which one is drawn, nothing
    is scrolled. *)
Lemma final_scroll_is_not_first_vertex :
  let first := {| x := 0.1; y := 0.1 |} in
  let g :=
    {| page := JS.VNum 0; key := "total";
       vertices := [ first; {| x := 0.9; y := 0.9 |} ] |} in
  let elsewhere :=
    {| page := JS.VNum 5; key := "date";
       vertices := [ {| x := 0.5; y := 0.5 |} ] |} in
  let viewport := {| width := 1000; height := 1000; viewport_scale := 1 |} in
  let draw groups :=
    drawVertices (fun _ => 0%Q) true viewport groups 0 true EmptyString
      (JS.Num 1) in
  (exists left top,
      final_scroll (draw [g]) = Some (scrollTo left top "smooth") /\
      (left == 850 /\ top == 850)%Q /\
      scroll_target (adjusted viewport 0 first)
      = scrollTo (Qmax (0.1 * 1000 - 50) 0) (Qmax (0.1 * 1000 - 50) 0) "smooth" /\
      (Qmax (0.1 * 1000 - 50) 0 == 50)%Q /\
      (~ left == 50 /\ ~ top == 50)%Q) /\
  (filter (on_page (JS.Num 1)) [g; elsewhere] = [g] /\
   filter is_scrollTo (draw [g; elsewhere]) = [] /\
   final_scroll (draw [g; elsewhere]) = None).
Proof.
  cbv zeta. split.
  - eexists. eexists. split; [vm_compute; reflexivity |].
    repeat split; try reflexivity; intros H; discriminate H.
  - repeat split.
Qed.

(** *** The update of the annotations *)

Section UpdateFacts.

Variable measureText : string -> Q.
Variable container : bool.

Lemma scrollToVertex_no_render (px py margin : Q) :
  filter is_renderPage (scrollToVertex container px py margin) = [].
Proof. unfold scrollToVertex. destruct container; reflexivity. Qed.

Lemma forEach_vertex_no_render (viewport : Viewport) (angle : Z) (count : nat)
  (scrollToView : bool) (index : nat) (vs : list Vertex) :
  filter is_renderPage
    (forEach_vertex container viewport angle count scrollToView index vs) = [].
Proof.
  revert index; induction vs as [|v vs IH]; intros index; [reflexivity |].
  cbn [forEach_vertex]. destruct (adjusted viewport angle v) as [px py].
  destruct (Nat.eqb index 0); cbn [filter is_renderPage];
    rewrite filter_app, IH;
    (destruct (Nat.eqb count 1 && scrollToView);
     [rewrite scrollToVertex_no_render |]; reflexivity).
Qed.

Lemma draw_text_no_render (text : string) (first : option (Q * Q)) :
  filter is_renderPage (draw_text measureText text first) = [].
Proof.
  unfold draw_text. destruct text; [reflexivity |].
  destruct first as [[fx fy]|]; reflexivity.
Qed.

(** [drawVertices] works on the overlay alone: it never renders a page. *)
Lemma drawVertices_no_render (viewport : Viewport)
  (groups : list VerticesGroup) (rotationAngle : Z) (scrollToView : bool)
  (text : string) (pageArg : JS.number) :
  filter is_renderPage
    (drawVertices measureText container viewport groups rotationAngle
       scrollToView text pageArg) = [].
Proof.
  unfold drawVertices. cbn [filter is_renderPage].
  generalize (length groups). intros count.
  induction groups as [|g groups IH]; [reflexivity |].
  cbn [forEach_group]. rewrite filter_app, IH, app_nil_r.
  unfold draw_group. destruct (on_page pageArg g); [| reflexivity].
  cbn [app filter is_renderPage].
  rewrite filter_app, forEach_vertex_no_render.
  cbn [app filter is_renderPage]. rewrite filter_app, draw_text_no_render.
  reflexivity.
Qed.

Lemma updateVertices_no_render (overlay : option Canvas) (rotation : Z)
  (groups : list VerticesGroup) (scrollToView : bool) (pageArg : JS.number) :
  filter is_renderPage
    (updateVertices measureText container overlay rotation groups scrollToView
       pageArg) = [].
Proof.
  unfold updateVertices. destruct overlay; [| reflexivity].
  apply drawVertices_no_render.
Qed.

Lemma same_pdf_refl (d : option PdfDocument) : same_pdf d d = true.
Proof. destruct d; [apply Z.eqb_refl | reflexivity]. Qed.

(** The path calls of [drawVertices] are those of the groups it draws, in
    order. *)
Lemma drawVertices_path_calls (viewport : Viewport)
  (groups : list VerticesGroup) (rotationAngle : Z) (scrollToView : bool)
  (text : string) (pageArg : JS.number) :
  filter is_path_call
    (drawVertices measureText container viewport groups rotationAngle
       scrollToView text pageArg)
  = flat_map (path_of_group viewport rotationAngle)
      (filter (on_page pageArg) groups).
Proof.
  unfold drawVertices. cbn [filter is_path_call].
  generalize (length groups). intros count.
  induction groups as [|g groups IH]; [reflexivity |].
  cbn [forEach_group filter]. rewrite filter_app, IH.
  unfold draw_group. destruct (on_page pageArg g); [| reflexivity].
  cbn [flat_map app filter is_path_call]. unfold path_of_group.
  rewrite filter_app, forEach_vertex_path.
  cbn [app filter is_path_call]. rewrite filter_app, draw_text_no_path.
  cbn [app filter is_path_call]. rewrite <- !app_assoc. reflexivity.
Qed.

(** C4: the effect of a new [verticesGroups] sets the current page to the
    page of the first group plus 1, and to 1 when there is no group. The
    page is switched: when it differs from the current one and a document
    is loaded, the page is rendered at the new page, and when it is the
    current one the effect that renders the page does not run. The effect
    leaves one more timer, of 10 ms, whose callback is [updateVertices] of
    the new groups for that page with [scrollToView] true. When it fires,
    in whatever state the viewer is then, the state does not change and no
    page is rendered; on the overlay canvas there is then, the whole canvas
    is cleared first and the path of every group of the page (and of the
    groups tagged all) is traced, closed, filled and stroked, the first
    group among them when its page is a number; without an overlay canvas
    nothing happens. *)
Theorem verticesGroups_update (verticesGroups : list VerticesGroup)
  (st : State) :
  let st' := useEffect_verticesGroups verticesGroups st in
  let page' := currentPage st' in
  let redraw :=
    {| delay := 10;
       callback := task_updateVertices (rotation st) verticesGroups true page' |} in
  (verticesGroups = [] -> page' = JS.Num 1) /\
  (forall first rest n,
      verticesGroups = first :: rest -> page first = JS.VNum n ->
      Z.abs n < 2 ^ 53 ->
      page' = JS.Num (n + 1) /\ on_page page' first = true) /\
  (forall first rest,
      verticesGroups = first :: rest ->
      page' = JS.add (JS.parseInt (page first)) (JS.Num 1)) /\
  timers st' = timers st ++ [redraw] /\
  (JS.same_value (currentPage st) page' = true ->
   useEffect_renderPage st st' = []) /\
  (JS.same_value (currentPage st) page' = false -> pdf st <> None ->
   useEffect_renderPage st st' = [renderPage page' (scale st) (rotation st)]) /\
  (forall later canvas,
      overlayCanvas later = Some canvas ->
      let viewport :=
        {| width := canvas_width canvas; height := canvas_height canvas;
           viewport_scale := 1 |} in
      let effects := snd (fire measureText container redraw later) in
      fst (fire measureText container redraw later) = later /\
      effects
      = drawVertices measureText container viewport verticesGroups
          (rotation st) true EmptyString page' /\
      hd_error effects
      = Some (clearRect 0 0 (canvas_width canvas) (canvas_height canvas)) /\
      filter is_path_call effects
      = flat_map (path_of_group viewport (rotation st))
          (filter (on_page page') verticesGroups) /\
      filter is_renderPage effects = []) /\
  (forall later,
      overlayCanvas later = None ->
      fire measureText container redraw later = (later, [])).
Proof.
  cbv zeta.
  split; [intros ->; reflexivity |].
  split.
  { intros first rest n -> Hn _.
    assert (Hc : currentPage (useEffect_verticesGroups (first :: rest) st)
                 = JS.Num (n + 1)).
    { cbn. rewrite Hn, JSFacts.parseInt_VNum. reflexivity. }
    split; [exact Hc |]. rewrite Hc. apply on_page_spec. right. exists n.
    rewrite Hn, JSFacts.parseInt_VNum. auto. }
  split; [intros first rest ->; reflexivity |].
  split; [reflexivity |].
  split.
  { intros Hsame. unfold useEffect_renderPage, deps_unchanged.
    cbn [useEffect_verticesGroups setTimeout setTimers setCurrentPage pdf scale
           rotation currentPage] in *.
    rewrite same_pdf_refl, Qeq_bool_refl, Z.eqb_refl, Hsame. reflexivity. }
  split.
  { intros Hdiff Hpdf. unfold useEffect_renderPage, deps_unchanged.
    cbn [useEffect_verticesGroups setTimeout setTimers setCurrentPage pdf scale
           rotation currentPage] in *.
    rewrite same_pdf_refl, Qeq_bool_refl, Z.eqb_refl, Hdiff.
    cbn [andb]. destruct (pdf st); [reflexivity | congruence]. }
  split.
  { intros later canvas Hc. cbv zeta.
    assert (He : snd (fire measureText container
                        {| delay := 10;
                           callback :=
                             task_updateVertices (rotation st) verticesGroups
                               true
                               (currentPage
                                  (useEffect_verticesGroups verticesGroups st)) |}
                        later)
                 = drawVertices measureText container
                     {| width := canvas_width canvas;
                        height := canvas_height canvas;
                        viewport_scale := 1 |}
                     verticesGroups (rotation st) true EmptyString
                     (currentPage (useEffect_verticesGroups verticesGroups st))).
    { cbn [fire callback snd]. unfold updateVertices. rewrite Hc. reflexivity. }
    split; [reflexivity |]. split; [exact He |]. rewrite He.
    split; [reflexivity |].
    split; [apply drawVertices_path_calls | apply drawVertices_no_render]. }
  intros later Hc. cbn [fire callback]. unfold updateVertices. rewrite Hc.
  reflexivity.
Qed.

(** The square of the specification, tagged with page 0, arrives while
    the viewer shows page 1 on an overlay of 200 by 100: the page is
    not rendered again, and the timer clears the overlay and draws the
    square. *)
Example redraw_square_on_current_page :
  let square :=
    {| page := JS.VNum 0; key := "total";
       vertices := [ {| x := 0.1; y := 0.1 |}; {| x := 0.3; y := 0.1 |};
                     {| x := 0.3; y := 0.3 |}; {| x := 0.1; y := 0.3 |} ] |} in
  let st :=
    {| pdf := Some {| fingerprint := 1; doc_numPages := 3 |}; rotation := 0;
       numPages := 3; currentPage := JS.Num 1; loading := false; scale := 1.5;
       showError := defaultErrorValue;
       overlayCanvas := Some {| canvas_width := 200; canvas_height := 100 |};
       timers := [] |} in
  let st' := useEffect_verticesGroups [square] st in
  let effects := snd (run_timers measureText container st') in
  useEffect_renderPage st st' = [] /\
  hd_error effects = Some (clearRect 0 0 200 100) /\
  filter is_path_call effects
  = [ beginPath;
      moveTo (0.1 * 200) (0.1 * 100); lineTo (0.3 * 200) (0.1 * 100);
      lineTo (0.3 * 200) (0.3 * 100); lineTo (0.1 * 200) (0.3 * 100);
      closePath; fill; stroke ].
Proof.
  cbv zeta. split; [reflexivity |]. split; [reflexivity |].
  unfold run_timers. cbn [useEffect_verticesGroups setTimeout setTimers
    setCurrentPage timers app fire_all fire callback overlayCanvas snd
    updateVertices].
  rewrite app_nil_r. rewrite drawVertices_path_calls. reflexivity.
Qed.

(** A group tagged with page 0 arrives while a loaded viewer shows page 2:
    the current page becomes 1, the page is rendered again since the
    current page has changed, and the timer draws the one region. *)
Example square_while_on_second_page :
  let square :=
    {| page := JS.VNum 0; key := "total";
       vertices := [ {| x := 0.1; y := 0.1 |}; {| x := 0.3; y := 0.1 |};
                     {| x := 0.3; y := 0.3 |}; {| x := 0.1; y := 0.3 |} ] |} in
  let document := {| fingerprint := 1; doc_numPages := 3 |} in
  let st :=
    setCurrentPage (fun _ => JS.Num 2)
      (setNumPages 3 (setPdf (Some document) initial)) in
  let st' := useEffect_verticesGroups [square] st in
  currentPage st' = JS.Num 1 /\
  useEffect_renderPage st st' = [renderPage (JS.Num 1) 1.5 0] /\
  map delay (timers st') = [10].
Proof. repeat split. Qed.

(** C5: when the page of the first group is a string in which [parseInt]
    finds no number, such as the string all, the effect of a new
    [verticesGroups] sets the current page to [NaN], whatever the number of
    pages: nothing clamps it, and the current page is not in
    [1, numPages] afterwards even if it was before. *)
Theorem verticesGroups_update_not_a_number (first : VerticesGroup)
  (rest : list VerticesGroup) (s : string) (st : State) :
  page first = JS.VStr s -> JS.parseInt_string s = JS.NaN ->
  let st' := useEffect_verticesGroups (first :: rest) st in
  JS.parseInt (JS.VStr "all") = JS.NaN /\
  currentPage st' = JS.NaN /\
  numPages st' = numPages st /\
  page_in_range st' = false /\
  page_in_range (nextPage st') = false /\
  page_in_range (prevPage st') = false.
Proof.
  intros Hp Hs. cbv zeta.
  assert (Hc : currentPage (useEffect_verticesGroups (first :: rest) st)
               = JS.NaN).
  { cbn. rewrite Hp. cbn [JS.parseInt]. rewrite Hs. reflexivity. }
  repeat split; try exact Hc.
  - unfold page_in_range. rewrite Hc. reflexivity.
  - unfold page_in_range, nextPage, setCurrentPage. cbn [currentPage].
    rewrite Hc. reflexivity.
  - unfold page_in_range, prevPage, setCurrentPage. cbn [currentPage].
    rewrite Hc. reflexivity.
Qed.

End UpdateFacts.

Lemma verticesGroups_update_not_a_number_witness :
  let everywhere :=
    {| page := JS.VStr "all"; key := "stamp";
       vertices := [ {| x := 0.1; y := 0.1 |}; {| x := 0.3; y := 0.1 |};
                     {| x := 0.3; y := 0.3 |} ] |} in
  let st := setNumPages 3 initial in
  page_in_range st = true /\
  currentPage (useEffect_verticesGroups [everywhere] st) = JS.NaN /\
  page_in_range (useEffect_verticesGroups [everywhere] st) = false.
Proof.
  cbv zeta. split; [reflexivity |].
  pose proof (verticesGroups_update_not_a_number
                {| page := JS.VStr "all"; key := "stamp";
                   vertices := [ {| x := 0.1; y := 0.1 |};
                                 {| x := 0.3; y := 0.1 |};
                                 {| x := 0.3; y := 0.3 |} ] |}
                [] "all" (setNumPages 3 initial) eq_refl eq_refl) as H.
  exact (conj (proj1 (proj2 H)) (proj1 (proj2 (proj2 (proj2 H))))).
Defined.

(** Nor is a page number clamped: page 10 of a document of 3 pages leads
    to the current page 11. *)
Example verticesGroups_update_beyond_last_page :
  let far := {| page := JS.VNum 10; key := "total"; vertices := [] |} in
  let st := useEffect_verticesGroups [far] (setNumPages 3 initial) in
  currentPage st = JS.Num 11 /\ numPages st = 3 /\ page_in_range st = false.
Proof. repeat split. Qed.


(** *** Loading *)

Section LoadingFacts.

Variables Blob ArrayBuffer : Type.
Variable getPdfBlob : string -> option Blob.
Variable arrayBuffer : Blob -> option ArrayBuffer.
Variable getDocument : ArrayBuffer -> option PdfDocument.
Variable measureText : string -> Q.
Variable container : bool.

Local Abbreviation try_load := (try_load Blob ArrayBuffer getPdfBlob arrayBuffer getDocument).
Local Abbreviation loadPDF := (loadPDF Blob ArrayBuffer getPdfBlob arrayBuffer getDocument).
Local Abbreviation useEffect_loadPDF :=
  (useEffect_loadPDF Blob ArrayBuffer getPdfBlob arrayBuffer getDocument).
Local Abbreviation refreshPDF :=
  (refreshPDF Blob ArrayBuffer getPdfBlob arrayBuffer getDocument).
Local Abbreviation run_timers := (run_timers measureText container).
Local Abbreviation fire_all := (fire_all measureText container).

(** The load fails as soon as one of its three steps does. *)
Lemma try_load_fails (url : string) :
  try_load url = None <->
  getPdfBlob url = None \/
  (exists blob, getPdfBlob url = Some blob /\ arrayBuffer blob = None) \/
  (exists blob data,
      getPdfBlob url = Some blob /\ arrayBuffer blob = Some data /\
      getDocument data = None).
Proof.
  unfold Viewer.try_load, bind.
  destruct (getPdfBlob url) as [blob|]; [| tauto].
  destruct (arrayBuffer blob) as [data|] eqn:Ea.
  - destruct (getDocument data) eqn:Ed.
    + split; [discriminate |].
      intros [H | [[b [Hb H]] | [b [d [Hb [Hd H]]]]]];
        [ discriminate H
        | injection Hb as <-; congruence
        | injection Hb as <-; congruence ].
    + split; [| reflexivity]. intros _. right. right.
      exists blob, data. auto.
  - split; [| reflexivity]. intros _. right. left. exists blob. auto.
Qed.

Lemma fire_keeps_fields (t : Timer) (st : State) :
  let st' := fst (fire measureText container t st) in
  pdf st' = pdf st /\ numPages st' = numPages st /\
  showError st' = showError st /\ timers st' = timers st.
Proof. unfold fire. destruct (callback t); cbn; auto. Qed.

(** When the last pending timer stops the loading, the loading is stopped
    once the timers have fired, and the other cells are as before. *)
Lemma fire_all_stops_loading (ts : list Timer) (ms : Z) (st : State) :
  let st' :=
    fst (fire_all (ts ++ [{| delay := ms; callback := task_setLoading false |}])
           st) in
  loading st' = false /\ pdf st' = pdf st /\ numPages st' = numPages st /\
  showError st' = showError st /\ timers st' = timers st.
Proof.
  cbv zeta. revert st; induction ts as [|t ts IH]; intros st.
  - cbn. auto.
  - cbn [app Viewer.fire_all].
    pose proof (fire_keeps_fields t st) as Hk. cbv zeta in Hk.
    destruct (fire measureText container t st) as [st1 effects1].
    cbn [fst] in Hk. specialize (IH st1).
    destruct (fire_all
                (ts ++ [{| delay := ms; callback := task_setLoading false |}])
                st1) as [st2 effects2].
    cbn [fst] in *. intuition congruence.
Qed.

Lemma loadPDF_timers (fileUrl : option string) (st : State) :
  timers (loadPDF fileUrl st) = timers st.
Proof.
  unfold Viewer.loadPDF. destruct fileUrl as [[|c url]|]; try reflexivity.
  destruct (try_load (String c url)); reflexivity.
Qed.

(** Without a [fileUrl] nothing is loaded and no error is shown. *)
Lemma loadPDF_without_url (st : State) :
  loadPDF None st = st /\ loadPDF (Some EmptyString) st = st.
Proof. split; reflexivity. Qed.

(** The load succeeds when its three steps do. *)
Lemma try_load_succeeds (url : string) (pdfDocument : PdfDocument) :
  try_load url = Some pdfDocument <->
  exists blob data,
    getPdfBlob url = Some blob /\ arrayBuffer blob = Some data /\
    getDocument data = Some pdfDocument.
Proof.
  unfold Viewer.try_load, bind. split.
  - destruct (getPdfBlob url) as [blob|]; [| discriminate].
    destruct (arrayBuffer blob) as [data|] eqn:Ea; [| discriminate].
    intros Hd. exists blob, data. auto.
  - intros [blob [data [Hb [Ha Hd]]]]. rewrite Hb, Ha. exact Hd.
Qed.

(** C10: when the load of a document fails, that is when the fetch of the
    file, the reading of its bytes or the parsing of the document throws,
    the error is shown with the one message of the component, whichever
    step failed, the document and the number of pages are not set, and the
    only timer left is the one that stops the loading, so nothing is tried
    again; when the three steps succeed, the document and its number of
    pages are set and the error is untouched; in both cases the loading is
    on until the timers fire and off after; and [refreshPDF] is the same
    load started from the state in which the error is cleared. *)
Theorem load_outcome (url : string) (st : State) :
  url <> EmptyString ->
  let st' := useEffect_loadPDF (Some url) st in
  let reloaded := refreshPDF (Some url) st in
  let stop := {| delay := 0; callback := task_setLoading false |} in
  let fails :=
    getPdfBlob url = None \/
    (exists blob, getPdfBlob url = Some blob /\ arrayBuffer blob = None) \/
    (exists blob data,
        getPdfBlob url = Some blob /\ arrayBuffer blob = Some data /\
        getDocument data = None) in
  let succeeds pdfDocument :=
    exists blob data,
      getPdfBlob url = Some blob /\ arrayBuffer blob = Some data /\
      getDocument data = Some pdfDocument in
  (fails ->
   showError st' = {| open := true; message := "Cannot load pdf file!" |} /\
   pdf st' = pdf st /\ numPages st' = numPages st /\
   showError reloaded = {| open := true; message := "Cannot load pdf file!" |} /\
   pdf reloaded = pdf st /\ numPages reloaded = numPages st) /\
  (forall pdfDocument,
      succeeds pdfDocument ->
      pdf st' = Some pdfDocument /\ numPages st' = doc_numPages pdfDocument /\
      showError st' = showError st /\
      pdf reloaded = Some pdfDocument /\
      numPages reloaded = doc_numPages pdfDocument /\
      showError reloaded = defaultErrorValue) /\
  (fails \/ exists pdfDocument, succeeds pdfDocument) /\
  loading st' = true /\ loading reloaded = true /\
  timers st' = timers st ++ [stop] /\
  timers reloaded = timers st ++ [stop] /\
  (let done := fst (run_timers st') in
   loading done = false /\ pdf done = pdf st' /\ numPages done = numPages st' /\
   showError done = showError st' /\ timers done = []) /\
  (let done := fst (run_timers reloaded) in
   loading done = false /\ pdf done = pdf reloaded /\
   numPages done = numPages reloaded /\
   showError done = showError reloaded /\ timers done = []) /\
  reloaded = useEffect_loadPDF (Some url) (setShowError defaultErrorValue st).
Proof.
  intros Hurl. cbv zeta.
  destruct url as [|c url]; [congruence |].
  assert (Ht : forall s,
             timers (useEffect_loadPDF (Some (String c url)) s)
             = timers s
               ++ [{| delay := 0; callback := task_setLoading false |}]).
  { intros s. unfold Viewer.useEffect_loadPDF, finally_stop_loading, setTimeout.
    cbn [timers setTimers]. rewrite loadPDF_timers. reflexivity. }
  assert (Hdone : forall s,
             let s' := useEffect_loadPDF (Some (String c url)) s in
             let done := fst (run_timers s') in
             loading done = false /\ pdf done = pdf s' /\
             numPages done = numPages s' /\ showError done = showError s' /\
             timers done = []).
  { intros s. cbv zeta. unfold Viewer.run_timers. rewrite Ht.
    pose proof (fire_all_stops_loading (timers s) 0
                  (setTimers [] (useEffect_loadPDF (Some (String c url)) s)))
      as H.
    cbv zeta in H. cbn [pdf numPages showError timers setTimers] in H.
    exact H. }
  assert (Hr : refreshPDF (Some (String c url)) st
               = useEffect_loadPDF (Some (String c url))
                   (setShowError defaultErrorValue st)) by reflexivity.
  split; [| split; [| split; [| split; [| split; [| split; [| split;
    [| split; [| split]]]]]]]].
  - intros Hf. apply try_load_fails in Hf.
    unfold Viewer.refreshPDF, Viewer.useEffect_loadPDF, Viewer.loadPDF.
    rewrite Hf. cbn. auto 10.
  - intros d Hd. apply try_load_succeeds in Hd.
    unfold Viewer.refreshPDF, Viewer.useEffect_loadPDF, Viewer.loadPDF.
    rewrite Hd. cbn. auto 10.
  - destruct (try_load (String c url)) as [d|] eqn:E.
    + right. exists d. apply try_load_succeeds. exact E.
    + left. apply try_load_fails. exact E.
  - unfold Viewer.useEffect_loadPDF, Viewer.loadPDF.
    destruct (try_load (String c url)); reflexivity.
  - unfold Viewer.refreshPDF, Viewer.loadPDF.
    destruct (try_load (String c url)); reflexivity.
  - apply Ht.
  - rewrite Hr, Ht. reflexivity.
  - apply Hdone.
  - rewrite Hr. apply Hdone.
  - exact Hr.
Qed.

End LoadingFacts.

Lemma load_outcome_witness :
  let unreachable : string -> option unit := fun _ => None in
  let fetch : string -> option unit := fun _ => Some tt in
  let read : unit -> option unit := fun _ => Some tt in
  let parse : unit -> option PdfDocument :=
    fun _ => Some {| fingerprint := 7; doc_numPages := 3 |} in
  let failed :=
    useEffect_loadPDF unit unit unreachable read parse (Some "invoice.pdf"%string)
      initial in
  let loaded :=
    useEffect_loadPDF unit unit fetch read parse (Some "invoice.pdf"%string)
      initial in
  (showError failed = {| open := true; message := "Cannot load pdf file!" |} /\
   numPages failed = 0 /\
   loading failed = true /\
   loading (fst (run_timers (fun _ => 0%Q) true failed)) = false) /\
  (pdf loaded = Some {| fingerprint := 7; doc_numPages := 3 |} /\
   numPages loaded = 3 /\
   showError loaded = defaultErrorValue /\
   loading (fst (run_timers (fun _ => 0%Q) true loaded)) = false).
Proof.
  cbv zeta.
  assert (Hurl : "invoice.pdf"%string <> EmptyString) by discriminate.
  pose proof (load_outcome unit unit (fun _ => None) (fun _ => Some tt)
                (fun _ => Some {| fingerprint := 7; doc_numPages := 3 |})
                (fun _ => 0%Q) true "invoice.pdf" initial Hurl) as Hfailed.
  pose proof (load_outcome unit unit (fun _ => Some tt) (fun _ => Some tt)
                (fun _ => Some {| fingerprint := 7; doc_numPages := 3 |})
                (fun _ => 0%Q) true "invoice.pdf" initial Hurl) as Hloaded.
  cbv zeta in Hfailed, Hloaded.
  destruct Hfailed as [Hfail [_ [_ [Hloading [_ [_ [_ [Hdone _]]]]]]]].
  destruct Hloaded as [_ [Hok [_ [_ [_ [_ [_ [Hdone' _]]]]]]]].
  destruct (Hfail (or_introl eq_refl)) as [He [_ [Hn _]]].
  destruct (Hok {| fingerprint := 7; doc_numPages := 3 |}
              (ex_intro _ tt (ex_intro _ tt (conj eq_refl (conj eq_refl eq_refl)))))
    as [Hp [Hn' [He' _]]].
  split.
  - split; [exact He |]. split; [exact Hn |].
    split; [exact Hloading | exact (proj1 Hdone)].
  - split; [exact Hp |]. split; [exact Hn' |].
    split; [exact He' | exact (proj1 Hdone')].
Defined.

(** A load that succeeds after one that failed: the Reload button clears
    the error and sets the document. *)
Example reload_after_failure :
  let read : unit -> option unit := fun _ => Some tt in
  let parse : unit -> option PdfDocument :=
    fun _ => Some {| fingerprint := 7; doc_numPages := 3 |} in
  let failed :=
    fst (run_timers (fun _ => 0%Q) true
           (useEffect_loadPDF unit unit (fun _ => None) read parse
              (Some "invoice.pdf"%string) initial)) in
  let reloaded :=
    fst (run_timers (fun _ => 0%Q) true
           (refreshPDF unit unit (fun _ => Some tt) read parse
              (Some "invoice.pdf"%string) failed)) in
  open (showError failed) = true /\ numPages failed = 0 /\
  loading failed = false /\
  open (showError reloaded) = false /\ numPages reloaded = 3 /\
  loading reloaded = false.
Proof. repeat split. Qed.

(** *** The pointer *)

(** Moving the pointer redraws the overlay at most: it clears the canvas
    and draws the groups under the pointer that are on the current page,
    without scrolling and without rendering the page. *)
Lemma handleOverlayMouseMove_overlay_only (measureText : string -> Q)
  (container : bool) (isPointInPolygon : Vertex -> list Vertex -> bool)
  (vertices' : list VerticesGroup) (st : State)
  (rect_width rect_height mouseX mouseY : Q) :
  let effects :=
    handleOverlayMouseMove measureText container isPointInPolygon vertices' st
      rect_width rect_height mouseX mouseY in
  filter is_scrollTo effects = [] /\
  filter is_renderPage effects = [] /\
  (effects = [] \/
   exists canvas rest,
     overlayCanvas st = Some canvas /\
     effects
     = clearRect 0 0 (canvas_width canvas) (canvas_height canvas) :: rest).
Proof.
  cbv zeta. unfold handleOverlayMouseMove.
  destruct (0 <? length vertices')%nat; [| cbn; auto].
  destruct (overlayCanvas st) as [canvas|]; [| cbn; auto].
  match goal with
  | |- context [if (0 <? length ?l)%nat then _ else _] =>
      destruct (0 <? length l)%nat; [| cbn; auto]
  end.
  repeat split.
  - apply drawVertices_no_scroll. rewrite andb_false_r. reflexivity.
  - apply drawVertices_no_render.
  - right. eexists. eexists. split; reflexivity.
Qed.

End ViewerFacts.

(** ** Rotation and geometry *)

Module GeometryFacts.

Import Viewer.

(** *** The normalized rotation *)

Lemma normalizedRotation_mod (r : Z) : normalizedRotation r = r mod 360.
Proof.
  unfold normalizedRotation, JS.rem.
  Z.to_euclidean_division_equations. lia.
Qed.

(** X1: the expression [(r % 360 + 360) % 360] is the remainder of the
    floored division by 360 for every integer, negative ones included: it
    lies in [0, 360), it is unchanged when a multiple of 360 is added, and
    it leaves a rotation that is already in [0, 360) as it is. *)
Theorem normalizedRotation_is_modulo (r k : Z) :
  normalizedRotation r = r mod 360 /\
  0 <= normalizedRotation r < 360 /\
  normalizedRotation (r + 360 * k) = normalizedRotation r /\
  normalizedRotation (normalizedRotation r) = normalizedRotation r /\
  (0 <= r < 360 -> normalizedRotation r = r).
Proof.
  rewrite !normalizedRotation_mod. repeat split.
  - apply Z.mod_pos_bound. lia.
  - apply Z.mod_pos_bound. lia.
  - rewrite Z.mul_comm. apply Z_mod_plus_full.
  - apply Z.mod_mod. lia.
  - intros Hr. apply Z.mod_small. exact Hr.
Qed.

(** X2: whatever the stored rotation, [rotateLeft] takes the normalized
    rotation 90 degrees back and [rotateRight] 90 degrees forth, modulo
    360; so each undoes the other, and four turns the same way come back to
    the same normalized rotation. *)
Theorem rotate_normalized (st : State) :
  let angle s := normalizedRotation (rotation s) in
  angle (rotateLeft st) = (angle st - 90) mod 360 /\
  angle (rotateRight st) = (angle st + 90) mod 360 /\
  angle (rotateRight (rotateLeft st)) = angle st /\
  angle (rotateLeft (rotateRight st)) = angle st /\
  angle (rotateLeft (rotateLeft (rotateLeft (rotateLeft st)))) = angle st /\
  angle (rotateRight (rotateRight (rotateRight (rotateRight st)))) = angle st /\
  angle (rotateLeft st) <> angle st /\
  angle (rotateRight st) <> angle st.
Proof.
  cbv zeta. unfold rotateLeft, rotateRight, setRotation. cbn [rotation].
  rewrite !normalizedRotation_mod. unfold JS.rem.
  repeat split; Z.to_euclidean_division_equations; lia.
Qed.

(** *** Pixels and points *)

Local Open Scope Q_scope.

(** X3: a vertex of the unit square is drawn inside the viewport, at every
    angle: its pixel is between 0 and the width, and between 0 and the
    height. *)
Theorem adjusted_in_viewport (viewport : Viewport) (normalizedAngle : Z)
  (vertex : Vertex) :
  0 <= width viewport -> 0 <= height viewport ->
  0 <= x vertex <= 1 -> 0 <= y vertex <= 1 ->
  let pixel := adjusted viewport normalizedAngle vertex in
  0 <= fst pixel <= width viewport /\ 0 <= snd pixel <= height viewport.
Proof.
  intros HW HH [Hx0 Hx1] [Hy0 Hy1]. unfold adjusted. cbv zeta.
  destruct (normalizedAngle =? 90)%Z;
    [| destruct (normalizedAngle =? 180)%Z;
       [| destruct (normalizedAngle =? 270)%Z]];
    cbn [fst snd]; repeat split; nra.
Qed.

Lemma adjusted_in_viewport_witness :
  let viewport := {| width := 800; height := 600; viewport_scale := 1 |} in
  let pixel := adjusted viewport 90 {| x := 0.25; y := 0.1 |} in
  0 <= fst pixel <= 800 /\ 0 <= snd pixel <= 600.
Proof.
  cbv zeta.
  apply (adjusted_in_viewport
           {| width := 800; height := 600; viewport_scale := 1 |} 90
           {| x := 0.25; y := 0.1 |});
    cbn [width height x y]; try split; lra.
Defined.

(** X4: the transform of [drawVertices] undoes the normalization of
    [handleOverlayMouseMove]: the point under the pointer is drawn at the
    pointer, for every rotation, when the rectangle of the canvas is not
    empty. *)
Theorem cursor_then_draw_roundtrip (viewport : Viewport) (rotation : Z)
  (mouseX mouseY : Q) :
  ~ width viewport == 0 -> ~ height viewport == 0 ->
  let point :=
    normalizedPoint (width viewport) (height viewport) rotation mouseX mouseY in
  let pixel := adjusted viewport (normalizedRotation rotation) point in
  fst pixel == mouseX /\ snd pixel == mouseY.
Proof.
  intros HW HH. unfold adjusted, normalizedPoint. cbv zeta.
  destruct (normalizedRotation rotation =? 90)%Z;
    [| destruct (normalizedRotation rotation =? 180)%Z;
       [| destruct (normalizedRotation rotation =? 270)%Z]];
    cbn [fst snd x y]; split; field; assumption.
Qed.

Lemma cursor_then_draw_roundtrip_witness :
  let viewport := {| width := 800; height := 600; viewport_scale := 1 |} in
  let point := normalizedPoint 800 600 180 200 150 in
  fst (adjusted viewport (normalizedRotation 180) point) == 200 /\
  snd (adjusted viewport (normalizedRotation 180) point) == 150.
Proof.
  cbv zeta.
  apply (cursor_then_draw_roundtrip
           {| width := 800; height := 600; viewport_scale := 1 |} 180 200 150);
    cbn [width height]; intros H; discriminate H.
Defined.

Lemma Qdiv_unit (a b : Q) : 0 < b -> 0 <= a <= b -> 0 <= a / b <= 1.
Proof.
  intros Hb [Ha0 Hab]. split.
  - apply Qle_shift_div_l; [exact Hb | lra].
  - apply Qle_shift_div_r; [exact Hb | lra].
Qed.

(** X5: a pointer inside the rectangle of the canvas is normalized to a
    point of the unit square, for every rotation. *)
Theorem normalizedPoint_in_unit_square (rect_width rect_height : Q)
  (rotation : Z) (mouseX mouseY : Q) :
  0 < rect_width -> 0 < rect_height ->
  0 <= mouseX <= rect_width -> 0 <= mouseY <= rect_height ->
  let point := normalizedPoint rect_width rect_height rotation mouseX mouseY in
  0 <= x point <= 1 /\ 0 <= y point <= 1.
Proof.
  intros HW HH HX HY. unfold normalizedPoint. cbv zeta.
  destruct (normalizedRotation rotation =? 90)%Z;
    [| destruct (normalizedRotation rotation =? 180)%Z;
       [| destruct (normalizedRotation rotation =? 270)%Z]];
    cbn [x y]; split; apply Qdiv_unit; try assumption; lra.
Qed.

Lemma normalizedPoint_in_unit_square_witness :
  let point := normalizedPoint 800 600 270 200 150 in
  0 <= x point <= 1 /\ 0 <= y point <= 1.
Proof.
  cbv zeta.
  apply (normalizedPoint_in_unit_square 800 600 270 200 150);
    try split; lra.
Defined.

End GeometryFacts.

(** ** The toolbar, the pagination control and the tools *)

Module ControlsFacts.

Import Viewer.

(** *** Zoom *)

Local Open Scope Q_scope.

Lemma scale_zoomIn (st : State) :
  scale (zoomIn st) = Qmin (scale st * 1.2) 5.
Proof. reflexivity. Qed.

Lemma scale_zoomOut (st : State) :
  scale (zoomOut st) = Qmax (scale st / 1.2) 0.5.
Proof. reflexivity. Qed.

Lemma run_repeat_S (a : Action) (n : nat) (st : State) :
  run (repeat a (S n)) st = run (repeat a n) (step a st).
Proof. reflexivity. Qed.

Lemma run_app (l1 l2 : list Action) (st : State) :
  run (l1 ++ l2) st = run l2 (run l1 st).
Proof. unfold run. apply fold_left_app. Qed.

Lemma zoomIn_monotone (s1 s2 : State) :
  scale s1 <= scale s2 -> scale (zoomIn s1) <= scale (zoomIn s2).
Proof.
  intros H. rewrite !scale_zoomIn. apply Q.min_le_compat_r. lra.
Qed.

Lemma zoomOut_monotone (s1 s2 : State) :
  scale s1 <= scale s2 -> scale (zoomOut s1) <= scale (zoomOut s2).
Proof.
  intros H. rewrite !scale_zoomOut. apply Q.max_le_compat_r.
  apply Qmult_le_compat_r; [exact H | ]. vm_compute. discriminate.
Qed.

Lemma repeat_zoomIn_monotone (n : nat) (s1 s2 : State) :
  scale s1 <= scale s2 ->
  scale (run (repeat ZoomIn n) s1) <= scale (run (repeat ZoomIn n) s2).
Proof.
  revert s1 s2; induction n as [|n IH]; intros s1 s2 H; [exact H |].
  rewrite !run_repeat_S. apply IH. cbn [step]. apply zoomIn_monotone, H.
Qed.

Lemma repeat_zoomOut_monotone (n : nat) (s1 s2 : State) :
  scale s1 <= scale s2 ->
  scale (run (repeat ZoomOut n) s1) <= scale (run (repeat ZoomOut n) s2).
Proof.
  revert s1 s2; induction n as [|n IH]; intros s1 s2 H; [exact H |].
  rewrite !run_repeat_S. apply IH. cbn [step]. apply zoomOut_monotone, H.
Qed.

Lemma repeat_zoomIn_stays_max (n : nat) (st : State) :
  5 <= scale st -> 5 <= scale (run (repeat ZoomIn n) st).
Proof.
  revert st; induction n as [|n IH]; intros st H; [exact H |].
  rewrite run_repeat_S. apply IH. cbn [step]. rewrite scale_zoomIn.
  apply Q.min_glb; lra.
Qed.

Lemma repeat_zoomOut_stays_min (n : nat) (st : State) :
  scale st <= 0.5 -> scale (run (repeat ZoomOut n) st) <= 0.5.
Proof.
  revert st; induction n as [|n IH]; intros st H; [exact H |].
  rewrite run_repeat_S. apply IH. cbn [step]. rewrite scale_zoomOut.
  apply Q.max_lub; [| lra]. apply Qle_shift_div_r; lra.
Qed.

Lemma repeat_zoomIn_le_max (n : nat) (st : State) :
  scale (run (repeat ZoomIn (S n)) st) <= 5.
Proof.
  cbn [repeat]. rewrite repeat_cons, run_app. cbn [run fold_left step].
  rewrite scale_zoomIn. apply Q.le_min_r.
Qed.

Lemma repeat_zoomOut_ge_min (n : nat) (st : State) :
  0.5 <= scale (run (repeat ZoomOut (S n)) st).
Proof.
  cbn [repeat]. rewrite repeat_cons, run_app. cbn [run fold_left step].
  rewrite scale_zoomOut. apply Q.le_max_r.
Qed.

(** X6: thirteen clicks are enough to reach a bound of the zoom from any
    scale in [0.5, 5]: after 13 or more [zoomIn] the scale is 5, and after
    13 or more [zoomOut] it is 0.5. *)
Theorem zoom_reaches_bounds (n : nat) (st : State) :
  (13 <= n)%nat -> 0.5 <= scale st -> scale st <= 5 ->
  scale (repeat_action n ZoomIn st) == 5 /\
  scale (repeat_action n ZoomOut st) == 0.5.
Proof.
  intros Hn Hlo Hhi. unfold repeat_action.
  replace n with (13 + (n - 13))%nat by lia.
  rewrite !repeat_app, !run_app. split.
  - apply Qle_antisym.
    + rewrite <- run_app, <- repeat_app.
      replace (13 + (n - 13))%nat with (S (12 + (n - 13))) by lia.
      apply repeat_zoomIn_le_max.
    + apply repeat_zoomIn_stays_max.
      apply Qle_trans
        with (scale (run (repeat ZoomIn 13) (setScale (fun _ => 0.5) st))).
      * vm_compute. discriminate.
      * apply repeat_zoomIn_monotone. exact Hlo.
  - apply Qle_antisym.
    + apply repeat_zoomOut_stays_min.
      apply Qle_trans
        with (scale (run (repeat ZoomOut 13) (setScale (fun _ => 5) st))).
      * apply repeat_zoomOut_monotone. exact Hhi.
      * vm_compute. discriminate.
    + rewrite <- run_app, <- repeat_app.
      replace (13 + (n - 13))%nat with (S (12 + (n - 13))) by lia.
      apply repeat_zoomOut_ge_min.
Qed.

Lemma zoom_reaches_bounds_witness :
  scale (repeat_action 13 ZoomIn initial) == 5 /\
  scale (repeat_action 13 ZoomOut initial) == 0.5.
Proof.
  apply (zoom_reaches_bounds 13 initial);
    [ apply le_n | cbn [scale initial]; lra | cbn [scale initial]; lra ].
Defined.

(** X7: in the range of the zoom, [zoomIn] never lowers the scale and
    [zoomOut] never raises it; below 5 [zoomIn] raises it, and above 0.5
    [zoomOut] lowers it; both keep the order of two scales. *)
Theorem zoom_direction (st other : State) :
  0.5 <= scale st -> scale st <= 5 ->
  scale st <= scale (zoomIn st) /\
  scale (zoomOut st) <= scale st /\
  (scale st < 5 -> scale st < scale (zoomIn st)) /\
  (0.5 < scale st -> scale (zoomOut st) < scale st) /\
  (scale st <= scale other ->
   scale (zoomIn st) <= scale (zoomIn other) /\
   scale (zoomOut st) <= scale (zoomOut other)).
Proof.
  intros Hlo Hhi. rewrite !scale_zoomIn, !scale_zoomOut.
  assert (Hdiv : scale st / 1.2 <= scale st).
  { apply Qle_shift_div_r; lra. }
  repeat split.
  - apply Q.min_glb; lra.
  - apply Q.max_lub; lra.
  - intros H. apply Q.min_glb_lt; lra.
  - intros H. apply Q.max_lub_lt; [| exact H].
    apply Qlt_shift_div_r; lra.
  - apply (zoomIn_monotone st other). assumption.
  - apply (zoomOut_monotone st other). assumption.
Qed.

Lemma zoom_direction_witness :
  scale initial < scale (zoomIn initial) /\
  scale (zoomOut initial) < scale initial.
Proof.
  assert (Hlo : 0.5 <= scale initial) by (cbn [scale initial]; lra).
  assert (Hhi : scale initial <= 5) by (cbn [scale initial]; lra).
  pose proof (zoom_direction initial initial Hlo Hhi) as H.
  destruct H as [_ [_ [Hin [Hout _]]]].
  split; [apply Hin | apply Hout]; cbn [scale initial]; lra.
Defined.

(** *** The effect that renders the page *)

Local Open Scope Z_scope.

Lemma same_pdf_same (d : option PdfDocument) : same_pdf d d = true.
Proof. destruct d; [apply Z.eqb_refl | reflexivity]. Qed.

Lemma same_value_same (n : JS.number) : JS.same_value n n = true.
Proof. destruct n; [apply Z.eqb_refl | reflexivity]. Qed.

(** X8: with a document loaded, every [rotateLeft] and every
    [rotateRight] changes the stored rotation and so makes the page render
    again, at the same page and scale and at the new rotation. *)
Theorem rotate_renders_again (st : State) (document : PdfDocument) :
  pdf st = Some document ->
  rotation (rotateLeft st) <> rotation st /\
  rotation (rotateRight st) <> rotation st /\
  useEffect_renderPage st (rotateLeft st)
  = [renderPage (currentPage st) (scale st) (rotation (rotateLeft st))] /\
  useEffect_renderPage st (rotateRight st)
  = [renderPage (currentPage st) (scale st) (rotation (rotateRight st))].
Proof.
  intros Hd.
  assert (Hl : rotation (rotateLeft st) <> rotation st).
  { cbn. unfold JS.rem. Z.to_euclidean_division_equations. lia. }
  assert (Hr : rotation (rotateRight st) <> rotation st).
  { cbn. unfold JS.rem. Z.to_euclidean_division_equations. lia. }
  repeat split; try assumption.
  - unfold useEffect_renderPage, deps_unchanged.
    cbn [rotateLeft setRotation pdf scale currentPage] in *.
    rewrite same_pdf_same, Qeq_bool_refl, Hd.
    apply not_eq_sym, Z.eqb_neq in Hl. rewrite Hl. reflexivity.
  - unfold useEffect_renderPage, deps_unchanged.
    cbn [rotateRight setRotation pdf scale currentPage] in *.
    rewrite same_pdf_same, Qeq_bool_refl, Hd.
    apply not_eq_sym, Z.eqb_neq in Hr. rewrite Hr. reflexivity.
Qed.

Lemma rotate_renders_again_witness :
  let st :=
    setNumPages 3
      (setPdf (Some {| fingerprint := 7; doc_numPages := 3 |}) initial) in
  useEffect_renderPage st (rotateLeft st) = [renderPage (JS.Num 1) 1.5 (-90)].
Proof.
  cbv zeta.
  exact (proj1 (proj2 (proj2
           (rotate_renders_again
              (setNumPages 3
                 (setPdf (Some {| fingerprint := 7; doc_numPages := 3 |})
                    initial))
              {| fingerprint := 7; doc_numPages := 3 |} eq_refl)))).
Defined.

(** X9: an action that meets its bound changes no dependency of the
    rendering effect, and the page is not rendered again: [zoomIn] at scale
    5, [zoomOut] at scale 0.5, [nextPage] on the last page and [prevPage]
    on page 1. And without a document no toolbar action renders. *)
Theorem clamped_action_does_not_render (st : State) :
  ((scale st == 5)%Q -> useEffect_renderPage st (zoomIn st) = []) /\
  ((scale st == 0.5)%Q -> useEffect_renderPage st (zoomOut st) = []) /\
  (currentPage st = JS.Num (numPages st) ->
   useEffect_renderPage st (nextPage st) = []) /\
  (currentPage st = JS.Num 1 -> useEffect_renderPage st (prevPage st) = []) /\
  (pdf st = None -> forall a, useEffect_renderPage st (step a st) = []).
Proof.
  repeat split.
  - intros H. unfold useEffect_renderPage, deps_unchanged.
    unfold zoomIn, setScale, MAX_SCALE. cbn [pdf scale rotation currentPage].
    rewrite same_pdf_same, Z.eqb_refl, same_value_same.
    assert (Hq : Qeq_bool (scale st) (Qmin (scale st * 1.2) 5) = true).
    { apply Qeq_bool_iff. rewrite Q.min_r; lra. }
    rewrite Hq. reflexivity.
  - intros H. unfold useEffect_renderPage, deps_unchanged.
    unfold zoomOut, setScale, MIN_SCALE. cbn [pdf scale rotation currentPage].
    rewrite same_pdf_same, Z.eqb_refl, same_value_same.
    assert (Hq : Qeq_bool (scale st) (Qmax (scale st / 1.2) 0.5) = true).
    { apply Qeq_bool_iff. rewrite Q.max_r; [lra |].
      apply Qle_shift_div_r; lra. }
    rewrite Hq. reflexivity.
  - intros H. unfold useEffect_renderPage, deps_unchanged.
    cbn [nextPage setCurrentPage pdf scale rotation currentPage numPages].
    rewrite same_pdf_same, Qeq_bool_refl, Z.eqb_refl, H.
    cbn [JS.add JS.min JS.same_value andb].
    replace (Z.min (numPages st + 1) (numPages st)) with (numPages st) by lia.
    rewrite Z.eqb_refl. reflexivity.
  - intros H. unfold useEffect_renderPage, deps_unchanged.
    cbn [prevPage setCurrentPage pdf scale rotation currentPage numPages].
    rewrite same_pdf_same, Qeq_bool_refl, Z.eqb_refl, H. reflexivity.
  - intros H a. unfold useEffect_renderPage.
    destruct (deps_unchanged st (step a st)); [reflexivity |].
    destruct a; cbn; rewrite H; reflexivity.
Qed.

(** *** The pagination control *)

(** With a supplied prop a render runs no effect that sets a cell. *)
Lemma after_render_supplied (groups : list VerticesGroup) (prev st : State) :
  after_render (prop_supplied groups) prev st = st.
Proof.
  unfold after_render. destruct (handler_changed_nothing prev st); reflexivity.
Qed.

(** With an omitted prop the render that follows a change ends on
    page 1. *)
Lemma after_render_omitted (prev st : State) :
  handler_changed_nothing prev st = false ->
  currentPage (after_render prop_omitted prev st) = JS.Num 1.
Proof.
  intros H. unfold after_render. rewrite H.
  destruct (JS.same_value (currentPage st)
              (currentPage (useEffect_verticesGroups [] st))); reflexivity.
Qed.

Lemma page_change_is_a_change (prev st : State) (p q : Z) :
  currentPage prev = JS.Num p -> currentPage st = JS.Num q -> p <> q ->
  handler_changed_nothing prev st = false.
Proof.
  intros Hp Hq Hne. unfold handler_changed_nothing. rewrite Hp, Hq.
  cbn [JS.same_value]. apply Z.eqb_neq in Hne. rewrite Hne.
  apply andb_false_r.
Qed.

(** X10: in the pagination control, the handler of an enabled button
    moves by exactly one page, and the page it sets is within the bound of
    that button, so the clamp of the handler is never the one that
    decides; a click on a disabled button changes nothing. When the caller
    supplies the prop [verticesGroups], next then previous comes back to a
    page that is at least 1, as previous then next does to a page that is
    at most the last, the renders in between included. When the prop is
    omitted, the render that follows a click on an enabled button sets the
    page back to 1. *)
Theorem pagination_buttons (groups : list VerticesGroup) (st : State)
  (p : Z) :
  currentPage st = JS.Num p ->
  let supplied := prop_supplied groups in
  (next_disabled st = false ->
   currentPage (click_nextPage st) = JS.Num (p + 1) /\ p + 1 <= numPages st) /\
  (prev_disabled st = false ->
   currentPage (click_prevPage st) = JS.Num (p - 1) /\ 1 <= p - 1) /\
  (next_disabled st = true -> click_nextPage st = st /\ numPages st <= p) /\
  (prev_disabled st = true -> click_prevPage st = st /\ p <= 1) /\
  (next_disabled st = false -> 1 <= p ->
   currentPage
     (click_prevPage_rendered supplied (click_nextPage_rendered supplied st))
   = JS.Num p) /\
  (prev_disabled st = false -> p <= numPages st ->
   currentPage
     (click_nextPage_rendered supplied (click_prevPage_rendered supplied st))
   = JS.Num p) /\
  (next_disabled st = false ->
   currentPage (click_nextPage_rendered prop_omitted st) = JS.Num 1) /\
  (prev_disabled st = false ->
   currentPage (click_prevPage_rendered prop_omitted st) = JS.Num 1).
Proof.
  intros Hp. cbv zeta.
  assert (Hnext : next_disabled st = false ->
                  currentPage (click_nextPage st) = JS.Num (p + 1) /\
                  p + 1 <= numPages st).
  { unfold click_nextPage, next_disabled. rewrite Hp. cbn [JS.le].
    destruct (Z.leb_spec (numPages st) p) as [Hn | Hn]; [discriminate |].
    intros _. unfold nextPage, setCurrentPage. cbn [currentPage].
    rewrite Hp. cbn [JS.add JS.min]. split; [f_equal |]; lia. }
  assert (Hprev : prev_disabled st = false ->
                  currentPage (click_prevPage st) = JS.Num (p - 1) /\
                  1 <= p - 1).
  { unfold click_prevPage, prev_disabled. rewrite Hp. cbn [JS.le].
    destruct (Z.leb_spec p 1) as [Hn | Hn]; [discriminate |].
    intros _. unfold prevPage, setCurrentPage. cbn [currentPage].
    rewrite Hp. cbn [JS.sub JS.max]. split; [f_equal |]; lia. }
  split; [exact Hnext |]. split; [exact Hprev |].
  split.
  { unfold click_nextPage, next_disabled. rewrite Hp. cbn [JS.le].
    destruct (Z.leb_spec (numPages st) p); [auto | discriminate]. }
  split.
  { unfold click_prevPage, prev_disabled. rewrite Hp. cbn [JS.le].
    destruct (Z.leb_spec p 1); [auto | discriminate]. }
  unfold click_nextPage_rendered, click_prevPage_rendered.
  rewrite !after_render_supplied.
  split.
  { intros Hn H1. destruct (Hnext Hn) as [Hc Hle].
    unfold click_prevPage, prev_disabled. rewrite Hc. cbn [JS.le].
    destruct (Z.leb_spec (p + 1) 1); [lia |].
    unfold prevPage, setCurrentPage. cbn [currentPage]. rewrite Hc.
    cbn [JS.sub JS.max]. f_equal. lia. }
  split.
  { intros Hn H1. destruct (Hprev Hn) as [Hc Hle].
    unfold click_nextPage, next_disabled.
    assert (Hnum : numPages (click_prevPage st) = numPages st).
    { unfold click_prevPage. destruct (prev_disabled st); reflexivity. }
    rewrite Hc, Hnum. cbn [JS.le].
    destruct (Z.leb_spec (numPages st) (p - 1)); [lia |].
    unfold nextPage, setCurrentPage. cbn [currentPage]. rewrite Hc, Hnum.
    cbn [JS.add JS.min]. f_equal. lia. }
  split.
  { intros Hn. destruct (Hnext Hn) as [Hc _].
    apply after_render_omitted.
    apply (page_change_is_a_change st (click_nextPage st) p (p + 1));
      [exact Hp | exact Hc | lia]. }
  intros Hn. destruct (Hprev Hn) as [Hc _].
  apply after_render_omitted.
  apply (page_change_is_a_change st (click_prevPage st) p (p - 1));
    [exact Hp | exact Hc | lia].
Qed.

Lemma pagination_buttons_witness :
  let st := click_PageItem 2 (setNumPages 3 initial) in
  currentPage (click_nextPage st) = JS.Num 3 /\
  currentPage (click_prevPage st) = JS.Num 1 /\
  currentPage
    (click_prevPage_rendered (prop_supplied [])
       (click_nextPage_rendered (prop_supplied []) st)) = JS.Num 2 /\
  currentPage (click_nextPage_rendered prop_omitted st) = JS.Num 1.
Proof.
  cbv zeta.
  pose proof (pagination_buttons [] (click_PageItem 2 (setNumPages 3 initial))
                2 eq_refl) as H.
  cbv zeta in H.
  destruct H as [Hn [Hp [_ [_ [Hnp [_ [Ho _]]]]]]].
  split; [exact (proj1 (Hn eq_refl)) |].
  split; [exact (proj1 (Hp eq_refl)) |].
  split; [apply (Hnp eq_refl); lia | exact (Ho eq_refl)].
Defined.

Lemma step_keeps_NaN (a : Action) (st : State) :
  currentPage st = JS.NaN -> currentPage (step a st) = JS.NaN.
Proof.
  intros H. destruct a; cbn [step]; try exact H;
    unfold nextPage, prevPage, setCurrentPage; cbn [currentPage];
    rewrite H; reflexivity.
Qed.

Lemma In_pageNumbers (st : State) (num : Z) :
  In num (pageNumbers st) <-> 1 <= num <= numPages st.
Proof.
  unfold pageNumbers. rewrite in_map_iff. split.
  - intros [i [Hi Hin]]. apply in_seq in Hin. lia.
  - intros H. exists (Z.to_nat (num - 1)). split; [lia |].
    apply in_seq. lia.
Qed.

(** X11: once the current page is [NaN], no toolbar action and no button of
    the pagination control changes it, both buttons staying enabled; a
    click on a page item is what brings the current page back into
    [1, numPages]. *)
Theorem NaN_page_is_stuck (st : State) (actions : list Action) :
  currentPage st = JS.NaN ->
  currentPage (run actions st) = JS.NaN /\
  next_disabled st = false /\ prev_disabled st = false /\
  currentPage (click_nextPage st) = JS.NaN /\
  currentPage (click_prevPage st) = JS.NaN /\
  (forall num, In num (pageNumbers st) ->
               page_in_range (click_PageItem num st) = true).
Proof.
  intros H. split; [| split; [| split; [| split; [| split]]]].
  - revert st H; induction actions as [|a actions IH]; intros st H;
      [exact H |].
    cbn [run fold_left]. apply IH, step_keeps_NaN, H.
  - unfold next_disabled. rewrite H. reflexivity.
  - unfold prev_disabled. rewrite H. reflexivity.
  - unfold click_nextPage, next_disabled. rewrite H. cbn [JS.le].
    unfold nextPage, setCurrentPage. cbn [currentPage]. rewrite H. reflexivity.
  - unfold click_prevPage, prev_disabled. rewrite H. cbn [JS.le].
    unfold prevPage, setCurrentPage. cbn [currentPage]. rewrite H. reflexivity.
  - intros num Hin. apply In_pageNumbers in Hin.
    unfold page_in_range, click_PageItem, setCurrentPage.
    cbn [currentPage numPages JS.le].
    apply andb_true_intro. split; apply Z.leb_le; lia.
Qed.

Lemma NaN_page_is_stuck_witness :
  let stamp := {| page := JS.VStr "all"; key := "stamp"; vertices := [] |} in
  let st := useEffect_verticesGroups [stamp] (setNumPages 3 initial) in
  currentPage (run [PrevPage; NextPage; NextPage] st) = JS.NaN /\
  page_in_range (click_PageItem 2 st) = true.
Proof.
  cbv zeta.
  pose proof (NaN_page_is_stuck
                (useEffect_verticesGroups
                   [{| page := JS.VStr "all"; key := "stamp"; vertices := [] |}]
                   (setNumPages 3 initial))
                [PrevPage; NextPage; NextPage] eq_refl) as H.
  destruct H as [Hrun [_ [_ [_ [_ Hitem]]]]].
  split; [exact Hrun |]. apply Hitem. vm_compute. auto.
Defined.





(** *** The tools *)

Lemma tool_step_valid (i : ToolInput) (tool : string) :
  tool = "selection"%string \/ tool = "handtool"%string ->
  tool_step i tool = "selection"%string \/ tool_step i tool = "handtool"%string.
Proof.
  intros H. destruct i as [e | |]; cbn [tool_step]; [| auto | auto].
  unfold handleKeyDown. destruct (ctrlKey e); [| exact H].
  destruct (String.eqb (event_key e) "h" || String.eqb (event_key e) "H");
    destruct (String.eqb (event_key e) "s" || String.eqb (event_key e) "S");
    cbn [fst]; auto.
Qed.

Lemma tool_steps_valid (inputs : list ToolInput) (tool : string) :
  tool = "selection"%string \/ tool = "handtool"%string ->
  let tool' := fold_left (fun t i => tool_step i t) inputs tool in
  tool' = "selection"%string \/ tool' = "handtool"%string.
Proof.
  cbv zeta. revert tool; induction inputs as [|i inputs IH]; intros tool H;
    [exact H |].
  cbn [fold_left]. apply IH, tool_step_valid, H.
Qed.

(** X13: the active tool is always selection or handtool, whatever keys
    are pressed and buttons clicked; [handleKeyDown] prevents the default
    action of the key exactly when Ctrl is held and the key is h, H, s or
    S; then the tool is handtool for h and H and selection for s and S,
    whatever it was; and otherwise the tool is unchanged. *)
Theorem tool_shortcuts (inputs : list ToolInput) (e : KeyboardEvent)
  (activeTool : string) :
  (tool_after inputs = "selection"%string \/
   tool_after inputs = "handtool"%string) /\
  (snd (handleKeyDown e activeTool) = true <->
   ctrlKey e = true /\ In (event_key e) ["h"; "H"; "s"; "S"]%string) /\
  (snd (handleKeyDown e activeTool) = false ->
   fst (handleKeyDown e activeTool) = activeTool) /\
  (ctrlKey e = true -> In (event_key e) ["h"; "H"]%string ->
   fst (handleKeyDown e activeTool) = "handtool"%string) /\
  (ctrlKey e = true -> In (event_key e) ["s"; "S"]%string ->
   fst (handleKeyDown e activeTool) = "selection"%string).
Proof.
  split.
  { unfold tool_after. apply tool_steps_valid. left. reflexivity. }
  unfold handleKeyDown. destruct e as [ctrl k]. cbn [ctrlKey event_key].
  destruct ctrl.
  - destruct (String.eqb_spec k "h") as [-> | Hh];
      [cbn; intuition congruence |].
    destruct (String.eqb_spec k "H") as [-> | HH];
      [cbn; intuition congruence |].
    destruct (String.eqb_spec k "s") as [-> | Hs];
      [cbn; intuition congruence |].
    destruct (String.eqb_spec k "S") as [-> | HS];
      [cbn; intuition congruence |].
    cbn. intuition congruence.
  - cbn. intuition congruence.
Qed.

End ControlsFacts.

(** ** The overlay and the pointer *)

Module OverlayFacts.

Import Viewer ViewerFacts.

Section Overlay.

Variable measureText : string -> Q.
Variable container : bool.
Variable viewport : Viewport.

(** *** The state of the context *)

Lemma scrollToVertex_no_bracket (px py margin : Q) :
  filter is_bracket (scrollToVertex container px py margin) = [].
Proof. unfold scrollToVertex. destruct container; reflexivity. Qed.

Lemma forEach_vertex_no_bracket (angle : Z) (count : nat)
  (scrollToView : bool) (index : nat) (vs : list Vertex) :
  filter is_bracket
    (forEach_vertex container viewport angle count scrollToView index vs) = [].
Proof.
  revert index; induction vs as [|v vs IH]; intros index; [reflexivity |].
  cbn [forEach_vertex]. destruct (adjusted viewport angle v) as [px py].
  destruct (Nat.eqb index 0); cbn [filter is_bracket is_save is_restore
                                     is_beginPath is_closePath orb];
    rewrite filter_app, IH;
    (destruct (Nat.eqb count 1 && scrollToView);
     [rewrite scrollToVertex_no_bracket |]; reflexivity).
Qed.

Lemma draw_text_no_bracket (text : string) (first : option (Q * Q)) :
  filter is_bracket (draw_text measureText text first) = [].
Proof.
  unfold draw_text. destruct text; [reflexivity |].
  destruct first as [[fx fy]|]; reflexivity.
Qed.

(** X14: [drawVertices] leaves the context as it found it: for each group
    it draws, and in this order, it saves the state, begins a path, closes
    it and restores the state, once each; nothing is nested and nothing is
    left open, whatever the groups, the text and the flags. *)
Theorem drawVertices_is_balanced (groups : list VerticesGroup)
  (rotationAngle : Z) (scrollToView : bool) (text : string)
  (pageArg : JS.number) :
  filter is_bracket
    (drawVertices measureText container viewport groups rotationAngle
       scrollToView text pageArg)
  = flat_map (fun _ => [save; beginPath; closePath; restore])
      (filter (on_page pageArg) groups).
Proof.
  unfold drawVertices. cbn [filter is_bracket is_save is_restore is_beginPath
                              is_closePath orb].
  generalize (length groups). intros count.
  induction groups as [|g groups IH]; [reflexivity |].
  cbn [forEach_group filter]. rewrite filter_app, IH.
  unfold draw_group. destruct (on_page pageArg g); [| reflexivity].
  cbn [flat_map app filter is_bracket is_save is_restore is_beginPath
         is_closePath orb].
  rewrite filter_app, forEach_vertex_no_bracket.
  cbn [app filter is_bracket is_save is_restore is_beginPath is_closePath orb].
  rewrite filter_app, draw_text_no_bracket. reflexivity.
Qed.

(** *** Labels *)




(** *** Scrolling *)

Lemma scrollToVertex_sound (px py : Q) :
  Forall scroll_is_sound (scrollToVertex container px py 50).
Proof.
  unfold scrollToVertex. destruct container; [| constructor].
  constructor; [| constructor]. cbn [scroll_is_sound].
  repeat split; apply Q.le_max_r.
Qed.

Lemma forEach_vertex_sound (angle : Z) (count : nat) (scrollToView : bool)
  (index : nat) (vs : list Vertex) :
  Forall scroll_is_sound
    (forEach_vertex container viewport angle count scrollToView index vs).
Proof.
  revert index; induction vs as [|v vs IH]; intros index; [constructor |].
  cbn [forEach_vertex]. destruct (adjusted viewport angle v) as [px py].
  constructor; [destruct (Nat.eqb index 0); exact I |].
  apply Forall_app. split; [| apply IH].
  destruct (Nat.eqb count 1 && scrollToView);
    [apply scrollToVertex_sound | constructor].
Qed.

Lemma draw_text_sound (text : string) (first : option (Q * Q)) :
  Forall scroll_is_sound (draw_text measureText text first).
Proof.
  unfold draw_text. destruct text; [constructor |].
  destruct first as [[fx fy]|]; repeat constructor.
Qed.

Lemma draw_group_sound (rotationAngle : Z) (count : nat)
  (scrollToView : bool) (text : string) (pageArg : JS.number)
  (g : VerticesGroup) :
  Forall scroll_is_sound
    (draw_group measureText container viewport rotationAngle count
       scrollToView text pageArg g).
Proof.
  unfold draw_group. destruct (on_page pageArg g); [| constructor].
  repeat (apply Forall_app; split); repeat constructor.
  - apply forEach_vertex_sound.
  - apply draw_text_sound.
Qed.

(** X16: [drawVertices] scrolls only when it is given exactly one group,
    [scrollToView] is true and the scroll container exists, and then once
    per vertex of that group if it is drawn; in every other case it does
    not scroll at all. Every scroll it asks for is smooth and goes to a
    position whose left and top are not negative. *)
Theorem drawVertices_scroll_count (groups : list VerticesGroup)
  (rotationAngle : Z) (scrollToView : bool) (text : string)
  (pageArg : JS.number) :
  let effects :=
    drawVertices measureText container viewport groups rotationAngle
      scrollToView text pageArg in
  length (filter is_scrollTo effects)
  = (if Nat.eqb (length groups) 1 && scrollToView && container
     then length (flat_map vertices (filter (on_page pageArg) groups))
     else 0%nat) /\
  Forall scroll_is_sound effects.
Proof.
  cbv zeta. split.
  - destruct (Nat.eqb (length groups) 1 && scrollToView && container) eqn:E.
    + apply andb_true_iff in E. destruct E as [E Hc].
      apply andb_true_iff in E. destruct E as [Hl Hs].
      apply Nat.eqb_eq in Hl.
      destruct groups as [|g [|g' groups]]; try discriminate Hl.
      subst scrollToView. unfold drawVertices.
      cbn [length forEach_group filter is_scrollTo]. rewrite app_nil_r.
      unfold draw_group. destruct (on_page pageArg g); [| reflexivity].
      cbn [app filter is_scrollTo flat_map].
      rewrite filter_app. rewrite Hc, forEach_vertex_scrolls.
      cbn [app filter is_scrollTo]. rewrite filter_app, draw_text_no_scroll.
      cbn [app filter is_scrollTo]. rewrite !app_nil_r, length_map.
      reflexivity.
    + rewrite drawVertices_no_scroll by exact E. reflexivity.
  - unfold drawVertices. constructor; [exact I |].
    generalize (length groups). intros count.
    induction groups as [|g groups IH]; [constructor |].
    cbn [forEach_group]. apply Forall_app. split; [| exact IH].
    apply draw_group_sound.
Qed.

End Overlay.

(** *** The pointer *)

Section PointerFacts.

Variable measureText : string -> Q.
Variable container : bool.
Variable isPointInPolygon : Vertex -> list Vertex -> bool.

Lemma forEach_vertex_no_text (viewport : Viewport) (text : string) (angle : Z)
  (count : nat) (scrollToView : bool) (index : nat) (vs : list Vertex) :
  Forall (text_is text)
    (forEach_vertex container viewport angle count scrollToView index vs).
Proof.
  revert index; induction vs as [|v vs IH]; intros index; [constructor |].
  cbn [forEach_vertex]. destruct (adjusted viewport angle v) as [px py].
  constructor; [destruct (Nat.eqb index 0); exact I |].
  apply Forall_app. split; [| apply IH].
  destruct (Nat.eqb count 1 && scrollToView); [| constructor].
  unfold scrollToVertex. destruct container; repeat constructor.
Qed.

Lemma drawVertices_text (viewport : Viewport) (groups : list VerticesGroup)
  (rotationAngle : Z) (scrollToView : bool) (text : string)
  (pageArg : JS.number) :
  Forall (text_is text)
    (drawVertices measureText container viewport groups rotationAngle
       scrollToView text pageArg).
Proof.
  unfold drawVertices. constructor; [exact I |].
  generalize (length groups). intros count.
  induction groups as [|g groups IH]; [constructor |].
  cbn [forEach_group]. apply Forall_app. split; [| exact IH].
  unfold draw_group. destruct (on_page pageArg g); [| constructor].
  repeat (apply Forall_app; split); repeat constructor.
  - apply forEach_vertex_no_text.
  - unfold draw_text. destruct text; [constructor |].
    destruct (firstVertex viewport (normalizedRotation rotationAngle)
                (vertices g)) as [[fx fy]|]; repeat constructor.
Qed.

(** X17: when no polygon of [vertices] contains the point under the
    pointer, when [vertices] is empty, or when there is no overlay canvas,
    [handleOverlayMouseMove] does nothing at all: the overlay is not even
    cleared, so what was drawn before stays. *)
Theorem pointer_off_polygons (vertices' : list VerticesGroup) (st : State)
  (rect_width rect_height mouseX mouseY : Q) :
  let point :=
    normalizedPoint rect_width rect_height (rotation st) mouseX mouseY in
  let effects :=
    handleOverlayMouseMove measureText container isPointInPolygon vertices' st
      rect_width rect_height mouseX mouseY in
  ((forall g, In g vertices' -> isPointInPolygon point (vertices g) = false) ->
   effects = []) /\
  (overlayCanvas st = None -> effects = []) /\
  (effects <> [] ->
   exists g, In g vertices' /\ isPointInPolygon point (vertices g) = true).
Proof.
  cbv zeta. unfold handleOverlayMouseMove.
  set (point := normalizedPoint rect_width rect_height (rotation st)
                  mouseX mouseY).
  set (hot := filter (fun v => isPointInPolygon point (vertices v)) vertices').
  split; [| split].
  - intros Hnone.
    assert (Hhot : hot = []).
    { unfold hot. induction vertices' as [|g l IH]; [reflexivity |].
      cbn [filter]. rewrite (Hnone g) by (left; reflexivity).
      apply IH. intros g' Hg'. apply Hnone. right. exact Hg'. }
    destruct (0 <? length vertices')%nat; [| reflexivity].
    destruct (overlayCanvas st); [| reflexivity].
    rewrite Hhot. reflexivity.
  - intros ->. destruct (0 <? length vertices')%nat; reflexivity.
  - intros Hne.
    destruct hot as [|g hot'] eqn:Ehot.
    + exfalso. apply Hne.
      destruct (0 <? length vertices')%nat; [| reflexivity].
      destruct (overlayCanvas st); reflexivity.
    + assert (Hin : In g hot) by (rewrite Ehot; left; reflexivity).
      unfold hot in Hin. apply filter_In in Hin. exists g. exact Hin.
Qed.

(** X18: when it draws, [handleOverlayMouseMove] clears the overlay and
    draws the groups under the pointer that are on the current page; it
    never scrolls and never renders the page; and every label it draws is
    the key of the first group under the pointer, for the other groups
    too. *)
Theorem pointer_highlight (vertices' : list VerticesGroup) (st : State)
  (rect_width rect_height mouseX mouseY : Q) (canvas : Canvas)
  (first : VerticesGroup) (others : list VerticesGroup) :
  overlayCanvas st = Some canvas ->
  filter
    (fun v =>
       isPointInPolygon
         (normalizedPoint rect_width rect_height (rotation st) mouseX mouseY)
         (vertices v))
    vertices' = first :: others ->
  let effects :=
    handleOverlayMouseMove measureText container isPointInPolygon vertices' st
      rect_width rect_height mouseX mouseY in
  effects
  = drawVertices measureText container
      {| width := canvas_width canvas; height := canvas_height canvas;
         viewport_scale := 1 |}
      (first :: others) (rotation st) false (key first) (currentPage st) /\
  hd_error effects
  = Some (clearRect 0 0 (canvas_width canvas) (canvas_height canvas)) /\
  filter is_scrollTo effects = [] /\
  filter is_renderPage effects = [] /\
  Forall (text_is (key first)) effects.
Proof.
  intros Hc Hhot. cbv zeta.
  assert (He : handleOverlayMouseMove measureText container isPointInPolygon
                 vertices' st rect_width rect_height mouseX mouseY
               = drawVertices measureText container
                   {| width := canvas_width canvas;
                      height := canvas_height canvas;
                      viewport_scale := 1 |}
                   (first :: others) (rotation st) false (key first)
                   (currentPage st)).
  { unfold handleOverlayMouseMove. rewrite Hc, Hhot.
    destruct vertices' as [|g l]; [discriminate Hhot | reflexivity]. }
  rewrite He. repeat split.
  - apply drawVertices_no_scroll. rewrite andb_false_r. reflexivity.
  - apply drawVertices_no_render.
  - apply drawVertices_text.
Qed.

End PointerFacts.

Lemma pointer_highlight_witness :
  let inside : Vertex -> list Vertex -> bool := fun _ _ => true in
  let total :=
    {| page := JS.VNum 0; key := "total";
       vertices := [ {| x := 0.1; y := 0.1 |}; {| x := 0.3; y := 0.1 |};
                     {| x := 0.3; y := 0.3 |} ] |} in
  let date :=
    {| page := JS.VNum 0; key := "date";
       vertices := [ {| x := 0.2; y := 0.2 |}; {| x := 0.4; y := 0.2 |};
                     {| x := 0.4; y := 0.4 |} ] |} in
  let st :=
    {| pdf := None; rotation := 0; numPages := 1; currentPage := JS.Num 1;
       loading := false; scale := 1.5; showError := defaultErrorValue;
       overlayCanvas := Some {| canvas_width := 200; canvas_height := 100 |};
       timers := [] |} in
  Forall (text_is "total")
    (handleOverlayMouseMove (fun _ => 40%Q) true inside [total; date] st
       200 100 50 25).
Proof.
  cbv zeta.
  exact (proj2 (proj2 (proj2 (proj2
           (pointer_highlight (fun _ => 40%Q) true (fun _ _ => true)
              [ {| page := JS.VNum 0; key := "total";
                   vertices := [ {| x := 0.1; y := 0.1 |};
                                 {| x := 0.3; y := 0.1 |};
                                 {| x := 0.3; y := 0.3 |} ] |};
                {| page := JS.VNum 0; key := "date";
                   vertices := [ {| x := 0.2; y := 0.2 |};
                                 {| x := 0.4; y := 0.2 |};
                                 {| x := 0.4; y := 0.4 |} ] |} ]
              {| pdf := None; rotation := 0; numPages := 1;
                 currentPage := JS.Num 1; loading := false; scale := 1.5;
                 showError := defaultErrorValue;
                 overlayCanvas :=
                   Some {| canvas_width := 200; canvas_height := 100 |};
                 timers := [] |}
              200 100 50 25
              {| canvas_width := 200; canvas_height := 100 |}
              {| page := JS.VNum 0; key := "total";
                 vertices := [ {| x := 0.1; y := 0.1 |};
                               {| x := 0.3; y := 0.1 |};
                               {| x := 0.3; y := 0.3 |} ] |}
              [ {| page := JS.VNum 0; key := "date";
                   vertices := [ {| x := 0.2; y := 0.2 |};
                                 {| x := 0.4; y := 0.2 |};
                                 {| x := 0.4; y := 0.4 |} ] |} ]
              eq_refl eq_refl))))).
Defined.

End OverlayFacts.

(** ** Annotations and loading *)

Module LifecycleFacts.

Import Viewer ViewerFacts.

(** *** Annotations *)

(** X19: when the page of the first group is an integer, the redraw that
    follows an update of the annotations draws the first group, and draws
    exactly the groups of the same page and the groups tagged all. *)
Theorem update_draws_first_group (first : VerticesGroup)
  (rest : list VerticesGroup) (n : Z) (st : State) :
  page first = JS.VNum n ->
  let st' := useEffect_verticesGroups (first :: rest) st in
  on_page (currentPage st') first = true /\
  (forall g,
      on_page (currentPage st') g = true <->
      page g = JS.VStr "all" \/ JS.parseInt (page g) = JS.Num n) /\
  (forall m, on_page (currentPage st') {| page := JS.VNum m; key := key first;
                                          vertices := vertices first |}
             = (m =? n)).
Proof.
  intros Hp. cbv zeta.
  assert (Hc : currentPage (useEffect_verticesGroups (first :: rest) st)
               = JS.Num (n + 1)).
  { cbn. rewrite Hp, JSFacts.parseInt_VNum. reflexivity. }
  rewrite Hc. split; [| split].
  - apply on_page_spec. right. exists n.
    rewrite Hp, JSFacts.parseInt_VNum. auto.
  - intros g. rewrite on_page_spec. split.
    + intros [H | [k [Hk Hn]]]; [left; exact H | right].
      injection Hn as Hn. rewrite Hk. f_equal. lia.
    + intros [H | H]; [left; exact H | right]. exists n. auto.
  - intros m. unfold on_page. cbn [page JS.value_is_string orb].
    rewrite JSFacts.parseInt_VNum. cbn [JS.sub JS.strict_eq].
    replace (n + 1 - 1) with n by lia. reflexivity.
Qed.

Lemma update_draws_first_group_witness :
  let total := {| page := JS.VNum 2; key := "total"; vertices := [] |} in
  let date := {| page := JS.VStr "2"; key := "date"; vertices := [] |} in
  let other := {| page := JS.VNum 0; key := "sum"; vertices := [] |} in
  let st' := useEffect_verticesGroups [total; date; other] initial in
  on_page (currentPage st') total = true /\
  filter (on_page (currentPage st')) [total; date; other] = [total; date].
Proof.
  cbv zeta. split; [| reflexivity].
  exact (proj1 (update_draws_first_group
                  {| page := JS.VNum 2; key := "total"; vertices := [] |}
                  [ {| page := JS.VStr "2"; key := "date"; vertices := [] |};
                    {| page := JS.VNum 0; key := "sum"; vertices := [] |} ]
                  2 initial eq_refl)).
Defined.

(** X20: when [parseInt] finds no number in the page of the first group,
    as for the string all, the redraw that follows is made for the page
    [NaN]: it draws exactly the groups tagged all, and no group tagged with
    a page number, whatever the number. *)
Theorem update_for_all_pages (first : VerticesGroup)
  (rest : list VerticesGroup) (st : State) :
  JS.parseInt (page first) = JS.NaN ->
  let st' := useEffect_verticesGroups (first :: rest) st in
  (forall g, on_page (currentPage st') g = true <-> page g = JS.VStr "all") /\
  (forall g m, page g = JS.VNum m -> on_page (currentPage st') g = false).
Proof.
  intros Hp. cbv zeta.
  assert (Hc : currentPage (useEffect_verticesGroups (first :: rest) st)
               = JS.NaN).
  { cbn. rewrite Hp. reflexivity. }
  rewrite Hc. split.
  - intros g. rewrite on_page_spec. split.
    + intros [H | [k [_ Hn]]]; [exact H | discriminate Hn].
    + intros H. left. exact H.
  - intros g m Hm. unfold on_page. rewrite Hm. cbn [JS.value_is_string orb].
    destruct (JS.parseInt (JS.VNum m)); reflexivity.
Qed.

Lemma update_for_all_pages_witness :
  let stamp := {| page := JS.VStr "all"; key := "stamp"; vertices := [] |} in
  let total := {| page := JS.VNum 0; key := "total"; vertices := [] |} in
  let st' := useEffect_verticesGroups [stamp; total] initial in
  on_page (currentPage st') stamp = true /\
  on_page (currentPage st') total = false.
Proof.
  cbv zeta.
  pose proof (update_for_all_pages
                {| page := JS.VStr "all"; key := "stamp"; vertices := [] |}
                [ {| page := JS.VNum 0; key := "total"; vertices := [] |} ]
                initial eq_refl) as H.
  destruct H as [Hall Hnum]. split.
  - apply Hall. reflexivity.
  - apply (Hnum _ 0). reflexivity.
Defined.

(** The effect of each list of groups, first to last. *)
Lemma updates_timers (updates : list (list VerticesGroup)) (st : State) :
  let st' := fold_left (fun s g => useEffect_verticesGroups g s) updates st in
  exists added,
    timers st' = timers st ++ added /\
    length added = length updates /\
    Forall (fun t => delay t = 10) added.
Proof.
  cbv zeta. revert st; induction updates as [|g updates IH]; intros st.
  - exists []. rewrite app_nil_r. repeat split. constructor.
  - cbn [fold_left]. destruct (IH (useEffect_verticesGroups g st))
      as [added [Ht [Hl Hd]]].
    eexists (_ :: added). rewrite Ht. cbn [useEffect_verticesGroups setTimeout
      setTimers timers setCurrentPage]. rewrite <- app_assoc. cbn [app].
    split; [reflexivity |]. split; [cbn [length]; lia |].
    constructor; [reflexivity | exact Hd].
Qed.

(** X21: the update of the annotations never cancels a pending redraw:
    each update adds one timer of 10 ms behind those that are pending, so
    after a series of updates there are as many more redraws to come as
    there were updates. And an update with the groups of the update before
    it does not render the page again, even when the page is [NaN]. *)
Theorem updates_accumulate (updates : list (list VerticesGroup))
  (groups : list VerticesGroup) (st : State) :
  let st' := fold_left (fun s g => useEffect_verticesGroups g s) updates st in
  length (timers st') = (length (timers st) + length updates)%nat /\
  firstn (length (timers st)) (timers st') = timers st /\
  Forall (fun t => delay t = 10) (skipn (length (timers st)) (timers st')) /\
  (let once := useEffect_verticesGroups groups st in
   let twice := useEffect_verticesGroups groups once in
   currentPage twice = currentPage once /\
   useEffect_renderPage once twice = [] /\
   length (timers twice) = S (length (timers once))).
Proof.
  cbv zeta. destruct (updates_timers updates st) as [added [Ht [Hl Hd]]].
  cbv zeta in Ht. rewrite Ht. split; [| split; [| split]].
  - rewrite length_app. lia.
  - rewrite firstn_app, firstn_all, Nat.sub_diag. cbn [firstn].
    apply app_nil_r.
  - rewrite skipn_app, skipn_all, Nat.sub_diag. exact Hd.
  - split; [reflexivity | split].
    + unfold useEffect_renderPage, deps_unchanged.
      cbn [useEffect_verticesGroups setTimeout setTimers setCurrentPage pdf
             scale rotation currentPage].
      rewrite ControlsFacts.same_pdf_same, Qeq_bool_refl, Z.eqb_refl,
        ControlsFacts.same_value_same.
      reflexivity.
    + cbn [useEffect_verticesGroups setTimeout setTimers setCurrentPage timers].
      rewrite !length_app. cbn [length]. lia.
Qed.

(** *** Loading *)

Section LoadFacts.

Variables Blob ArrayBuffer : Type.
Variable getPdfBlob : string -> option Blob.
Variable arrayBuffer : Blob -> option ArrayBuffer.
Variable getDocument : ArrayBuffer -> option PdfDocument.
Variable measureText : string -> Q.
Variable container : bool.

Local Abbreviation try_load :=
  (try_load Blob ArrayBuffer getPdfBlob arrayBuffer getDocument).
Local Abbreviation loadPDF :=
  (loadPDF Blob ArrayBuffer getPdfBlob arrayBuffer getDocument).
Local Abbreviation useEffect_loadPDF :=
  (useEffect_loadPDF Blob ArrayBuffer getPdfBlob arrayBuffer getDocument).
Local Abbreviation refreshPDF :=
  (refreshPDF Blob ArrayBuffer getPdfBlob arrayBuffer getDocument).
Local Abbreviation run_timers := (run_timers measureText container).

Lemma loadPDF_keeps_view (fileUrl : option string) (st : State) :
  let st' := loadPDF fileUrl st in
  currentPage st' = currentPage st /\ rotation st' = rotation st /\
  scale st' = scale st /\ overlayCanvas st' = overlayCanvas st /\
  loading st' = loading st /\ timers st' = timers st.
Proof.
  cbv zeta. unfold Viewer.loadPDF.
  destruct fileUrl as [[|c url]|]; try (repeat split; reflexivity).
  destruct (try_load (String c url)); repeat split; reflexivity.
Qed.

(** X22: without a file URL, or with the empty one, the load does nothing
    but stop the spinner: no document and no number of pages are set, no
    error is shown, and the loading is off once the timer has fired. The
    capabilities are not even called: the outcome is the same whatever
    they would answer. *)
Theorem load_without_url (fileUrl : option string) (st : State) :
  fileUrl = None \/ fileUrl = Some EmptyString ->
  let st' := useEffect_loadPDF fileUrl st in
  let done := fst (run_timers st') in
  pdf st' = pdf st /\ numPages st' = numPages st /\
  showError st' = showError st /\ loading st' = true /\
  pdf done = pdf st /\ numPages done = numPages st /\
  showError done = showError st /\ loading done = false /\
  showError (refreshPDF fileUrl st) = defaultErrorValue /\
  pdf (refreshPDF fileUrl st) = pdf st.
Proof.
  intros Hu. cbv zeta.
  assert (Hl : forall s, loadPDF fileUrl s = s).
  { intros s. destruct Hu as [-> | ->]; reflexivity. }
  unfold Viewer.useEffect_loadPDF, Viewer.refreshPDF. rewrite !Hl.
  unfold finally_stop_loading, setTimeout, Viewer.run_timers.
  cbn [timers setTimers setLoading setShowError pdf numPages showError loading].
  pose proof (fire_all_stops_loading measureText container (timers st) 0
                (setTimers [] (setLoading true st))) as H.
  cbv zeta in H. cbn [setTimers setLoading pdf numPages showError timers] in H.
  destruct H as [H1 [H2 [H3 [H4 _]]]].
  repeat split; assumption.
Qed.

(** X23: a load never touches the current page, the rotation or the
    scale, whether it succeeds or fails; so when the document loaded has
    fewer pages than the current page, the current page is left beyond the
    last page, where the next button is disabled. *)
Theorem load_keeps_view (fileUrl : option string) (st : State) :
  let st' := useEffect_loadPDF fileUrl st in
  currentPage st' = currentPage st /\ rotation st' = rotation st /\
  scale st' = scale st /\
  currentPage (refreshPDF fileUrl st) = currentPage st /\
  (forall url document p,
      fileUrl = Some url -> url <> EmptyString ->
      try_load url = Some document ->
      currentPage st = JS.Num p -> doc_numPages document < p ->
      page_in_range st' = false /\ next_disabled st' = true).
Proof.
  cbv zeta. unfold Viewer.useEffect_loadPDF, Viewer.refreshPDF.
  pose proof (loadPDF_keeps_view fileUrl (setLoading true st)) as H.
  pose proof (loadPDF_keeps_view fileUrl
                (setLoading true (setShowError defaultErrorValue st))) as H'.
  cbv zeta in H, H'.
  destruct H as [Hp [Hr [Hs _]]]. destruct H' as [Hp' _].
  unfold finally_stop_loading, setTimeout.
  cbn [setTimers currentPage rotation scale numPages] in *.
  split; [exact Hp |]. split; [exact Hr |]. split; [exact Hs |].
  split; [exact Hp' |].
  intros url document p Hu Hne Hload Hcur Hlt.
  assert (Hn : numPages (loadPDF fileUrl (setLoading true st))
               = doc_numPages document).
  { rewrite Hu. unfold Viewer.loadPDF. destruct url; [congruence |].
    rewrite Hload. reflexivity. }
  unfold page_in_range, next_disabled. cbn [setTimers currentPage numPages].
  rewrite Hp, Hn. cbn [setLoading currentPage]. rewrite Hcur. cbn [JS.le].
  split.
  - apply andb_false_iff. right. apply Z.leb_gt. lia.
  - apply Z.leb_le. lia.
Qed.

End LoadFacts.

Lemma load_without_url_witness :
  let st' :=
    Viewer.useEffect_loadPDF unit unit (fun _ => Some tt) (fun _ => Some tt)
      (fun _ => Some {| fingerprint := 7; doc_numPages := 3 |}) None initial in
  pdf st' = None /\ numPages st' = 0 /\
  open (showError st') = false /\
  loading (fst (Viewer.run_timers (fun _ => 0%Q) true st')) = false.
Proof.
  cbv zeta.
  pose proof (load_without_url unit unit (fun _ => Some tt) (fun _ => Some tt)
                (fun _ => Some {| fingerprint := 7; doc_numPages := 3 |})
                (fun _ => 0%Q) true None initial (or_introl eq_refl)) as H.
  cbv zeta in H.
  destruct H as [H1 [H2 [H3 [_ [_ [_ [_ [H8 _]]]]]]]].
  split; [exact H1 |]. split; [exact H2 |].
  split; [rewrite H3; reflexivity | exact H8].
Defined.

End LifecycleFacts.

(** ** Sequences of toolbar actions *)

Module ActionFacts.

Import Viewer ViewerFacts ControlsFacts.

Lemma step_frame (a : Action) (st : State) :
  pdf (step a st) = pdf st /\ numPages (step a st) = numPages st /\
  loading (step a st) = loading st /\ showError (step a st) = showError st /\
  overlayCanvas (step a st) = overlayCanvas st /\
  timers (step a st) = timers st.
Proof. destruct a; repeat split; reflexivity. Qed.

Lemma step_page_in_range (a : Action) (st : State) :
  page_in_range st = true -> page_in_range (step a st) = true.
Proof.
  intros H. apply page_in_range_spec in H. destruct H as [p [Hp Hr]].
  destruct a; cbn [step];
    try (apply page_in_range_spec; exists p; split; [exact Hp | exact Hr]).
  - apply page_in_range_spec. exists (Z.min (p + 1) (numPages st)).
    unfold nextPage, setCurrentPage. cbn [currentPage numPages].
    rewrite Hp. cbn [JS.add JS.min]. split; [reflexivity | lia].
  - apply page_in_range_spec. exists (Z.max (p - 1) 1).
    unfold prevPage, setCurrentPage. cbn [currentPage numPages].
    rewrite Hp. cbn [JS.sub JS.max]. split; [reflexivity | lia].
Qed.

Lemma after_render_frame (prop : VerticesGroupsProp) (prev st : State) :
  let st' := after_render prop prev st in
  pdf st' = pdf st /\ numPages st' = numPages st /\
  loading st' = loading st /\ showError st' = showError st /\
  exists added,
    timers st' = timers st ++ added /\
    Forall (fun t => delay t = 10) added /\
    (forall groups, prop = prop_supplied groups -> added = []).
Proof.
  cbv zeta. unfold after_render.
  destruct (handler_changed_nothing prev st).
  { repeat split. exists []. rewrite app_nil_r. repeat split; auto. }
  destruct prop as [|groups].
  - destruct (JS.same_value (currentPage st)
                (currentPage (useEffect_verticesGroups [] st))).
    + repeat split. eexists. split; [reflexivity |].
      split; [repeat constructor | discriminate].
    + repeat split. eexists.
      cbn [useEffect_verticesGroups setTimeout setTimers setCurrentPage timers].
      rewrite <- app_assoc. split; [reflexivity |].
      split; [repeat constructor | discriminate].
  - repeat split. exists []. rewrite app_nil_r. repeat split; auto.
Qed.

(** X24: no sequence of toolbar actions, the renders that follow them
    included, changes the document, the number of pages, the loading flag
    or the error, whether the prop [verticesGroups] is supplied or
    omitted; no pending timer is removed; the timers added are redraws of
    10 ms, and none is added when the prop is supplied. *)
Theorem actions_frame (prop : VerticesGroupsProp) (actions : list Action)
  (st : State) :
  let st' := run_rendered prop actions st in
  pdf st' = pdf st /\ numPages st' = numPages st /\
  loading st' = loading st /\ showError st' = showError st /\
  exists added,
    timers st' = timers st ++ added /\
    Forall (fun t => delay t = 10) added /\
    (forall groups, prop = prop_supplied groups -> added = []).
Proof.
  cbv zeta. revert st; induction actions as [|a actions IH]; intros st.
  - repeat split. exists []. rewrite app_nil_r. repeat split; auto.
  - cbn [run_rendered fold_left]. specialize (IH (act prop a st)).
    unfold run_rendered in IH.
    destruct IH as [I1 [I2 [I3 [I4 [added2 [I5 [I6 I7]]]]]]].
    pose proof (after_render_frame prop st (step a st)) as Hr.
    cbv zeta in Hr. fold (act prop a st) in Hr.
    destruct Hr as [R1 [R2 [R3 [R4 [added1 [R5 [R6 R7]]]]]]].
    pose proof (step_frame a st) as [F1 [F2 [F3 [F4 [_ F6]]]]].
    split; [congruence |]. split; [congruence |].
    split; [congruence |]. split; [congruence |].
    exists (added1 ++ added2). split; [| split].
    + rewrite I5, R5, F6, app_assoc. reflexivity.
    + apply Forall_app. split; assumption.
    + intros groups Hg. rewrite (R7 groups Hg), (I7 groups Hg). reflexivity.
Qed.

(** X25: a current page that is a page of the document stays one through
    every sequence of toolbar actions, whatever the zooms and rotations in
    between. *)
Theorem actions_keep_page_in_range (actions : list Action) (st : State) :
  page_in_range st = true -> page_in_range (run actions st) = true.
Proof.
  revert st; induction actions as [|a actions IH]; intros st H; [exact H |].
  cbn [run fold_left]. apply IH, step_page_in_range, H.
Qed.

Lemma actions_keep_page_in_range_witness :
  page_in_range
    (run [NextPage; ZoomIn; NextPage; RotateLeft; NextPage; PrevPage]
       (setNumPages 3 initial)) = true.
Proof.
  apply (actions_keep_page_in_range
           [NextPage; ZoomIn; NextPage; RotateLeft; NextPage; PrevPage]
           (setNumPages 3 initial)).
  reflexivity.
Defined.

(** *** Page navigation and the renders *)

Lemma run_rendered_supplied (groups : list VerticesGroup)
  (actions : list Action) (st : State) :
  run_rendered (prop_supplied groups) actions st = run actions st.
Proof.
  unfold run_rendered, run.
  revert st; induction actions as [|a actions IH]; intros st; [reflexivity |].
  cbn [fold_left].
  change (act (prop_supplied groups) a st)
    with (after_render (prop_supplied groups) st (step a st)).
  rewrite after_render_supplied. apply IH.
Qed.

(** C9: a viewer of three pages on page 1 whose caller omits the prop
    [verticesGroups]. Each call of [nextPage] sets the page to 2, and the
    render that follows sets it back to 1, since the default value of the
    prop is a new array at every render and the effect that depends on it
    runs again: after one, two, three and four calls the current page is
    1, not 2, 3, 3 and 3. More generally, with the prop omitted the page is
    1 after every action that changes a cell. With the prop supplied the
    same calls lead to 2, 3, 3 and 3, a page in [1, numPages] stays in
    that range through every sequence of actions, and [prevPage] of a page
    number is never below 1 and [nextPage] never above [numPages]. *)
Theorem nextPage_is_undone_without_prop :
  let loaded :=
    setNumPages 3
      (setPdf (Some {| fingerprint := 1; doc_numPages := 3 |}) initial) in
  let pages prop :=
    map (fun n => currentPage (run_rendered prop (repeat NextPage n) loaded))
      [1; 2; 3; 4]%nat in
  currentPage loaded = JS.Num 1 /\ numPages loaded = 3 /\
  currentPage (nextPage loaded) = JS.Num 2 /\
  pages prop_omitted = [JS.Num 1; JS.Num 1; JS.Num 1; JS.Num 1] /\
  (forall a st,
      handler_changed_nothing st (step a st) = false ->
      currentPage (act prop_omitted a st) = JS.Num 1) /\
  (forall groups,
      pages (prop_supplied groups) = [JS.Num 2; JS.Num 3; JS.Num 3; JS.Num 3]) /\
  (forall groups actions st,
      page_in_range st = true ->
      page_in_range (run_rendered (prop_supplied groups) actions st) = true) /\
  (forall st p,
      currentPage st = JS.Num p ->
      currentPage (prevPage st) = JS.Num (Z.max (p - 1) 1) /\
      1 <= Z.max (p - 1) 1 /\
      currentPage (nextPage st) = JS.Num (Z.min (p + 1) (numPages st)) /\
      Z.min (p + 1) (numPages st) <= numPages st).
Proof.
  cbv zeta.
  split; [reflexivity |]. split; [reflexivity |]. split; [reflexivity |].
  split; [reflexivity |].
  split; [intros a st H; apply after_render_omitted, H |].
  split.
  { intros groups. cbn [map]. rewrite !run_rendered_supplied. reflexivity. }
  split.
  { intros groups actions st H. rewrite run_rendered_supplied.
    revert st H; induction actions as [|a actions IH]; intros st H;
      [exact H |].
    cbn [run fold_left]. apply IH, step_page_in_range, H. }
  intros st p Hp.
  unfold prevPage, nextPage, setCurrentPage; cbn [currentPage numPages].
  rewrite Hp. cbn [JS.sub JS.max JS.add JS.min].
  repeat split; lia.
Qed.

End ActionFacts.
